(** * FM radio HAL control: a shallow embedding of [FMRadioHalControl]

    The C++ class [FMRadioHalControl] (src/fmradiohalcontrol.cpp) drives an
    FM tuner through the Android radio HAL and reports to Qt through
    signals.  The object's members, the band configuration held by
    [HalPrivate], the log of emitted signals and the log of commands sent
    to the HAL are the fields of one record, [State]; every member function
    is a computation in a small state monad over it.  Integers have the
    widths of the source: [unsigned] is a [Z] reduced modulo 2^32 and [int]
    a [Z] wrapped into the two's-complement range. *)

From Stdlib Require Import ZArith List Bool Lia String.
Import ListNotations.
Local Open Scope Z_scope.

(** ** Machine integers *)

Module Int32.

Definition modulus : Z := 2 ^ 32.
Definition half_modulus : Z := 2 ^ 31.
Definition INT_MAX : Z := half_modulus - 1.
Definition INT_MIN : Z := - half_modulus.

(** Conversion to [unsigned]: reduction modulo 2^32. *)
Definition to_unsigned (x : Z) : Z := x mod modulus.

(** Conversion to [int]: the value congruent modulo 2^32 that lies in
    [INT_MIN, INT_MAX]. *)
Definition to_int (x : Z) : Z := (x + half_modulus) mod modulus - half_modulus.

Definition usub (a b : Z) : Z := to_unsigned (a - b).
Definition uadd (a b : Z) : Z := to_unsigned (a + b).
Definition udiv (a b : Z) : Z := a / b.
Definition isub (a b : Z) : Z := to_int (a - b).
Definition imul (a b : Z) : Z := to_int (a * b).

Definition is_unsigned (x : Z) : Prop := 0 <= x < modulus.
Definition is_int (x : Z) : Prop := INT_MIN <= x <= INT_MAX.

End Int32.
Import Int32.

(** ** Unit conversion (lines 47-49)

    [// HAL uses unsigned int kHz, Qt uses int Hz].  The product of
    [FREQ_HAL_TO_QT] is an [int] product; where it leaves the range of
    [int] the model wraps it, as the compiled code does. *)

Definition FREQ_HAL_TO_QT (f : Z) : Z := imul (to_int f) 1000.
Definition FREQ_QT_TO_HAL (f : Z) : Z := udiv (to_unsigned f) 1000.

(** ** Qt strings and the character class of [handleMetadata]

    A [QString] is a sequence of UTF-16 code units. *)

Definition QChar := Z.
Definition QString := list QChar.

Definition QString_isEmpty (s : QString) : bool :=
  match s with [] => true | _ :: _ => false end.

Fixpoint QString_eqb (a b : QString) : bool :=
  match a, b with
  | [], [] => true
  | x :: a', y :: b' => (x =? y) && QString_eqb a' b'
  | _, _ => false
  end.

(** One item of a bracket expression: a single character or a range. *)
Inductive ClassItem : Type :=
| Single (c : QChar)
| Range (lo hi : QChar).

Definition item_matches (c : QChar) (i : ClassItem) : bool :=
  match i with
  | Single d => c =? d
  | Range lo hi => (lo <=? c) && (c <=? hi)
  end.

(** A pattern that is one bracket expression, negated or not. *)
Record QRegExp := mkRegExp { negated : bool; class_items : list ClassItem }.

Definition QRegExp_matches (rx : QRegExp) (c : QChar) : bool :=
  xorb (negated rx) (existsb (item_matches c) (class_items rx)).

(** [QString::remove(const QRegExp &)] deletes every match; the matches
    of a one-character pattern are the characters it accepts. *)
Definition QString_remove (rx : QRegExp) (s : QString) : QString :=
  filter (fun c => negb (QRegExp_matches rx c)) s.

(** [QChar::isSpace]: tab to carriage return, space, NEL, no-break space
    and the Unicode separators of the basic plane. *)
Definition QChar_isSpace (c : QChar) : bool :=
  (c =? 32) || ((9 <=? c) && (c <=? 13)) ||
  ((127 <? c) &&
   ((c =? 133) || (c =? 160) || (c =? 5760) ||
    ((8192 <=? c) && (c <=? 8202)) || (c =? 8232) || (c =? 8233) ||
    (c =? 8239) || (c =? 8287) || (c =? 12288))).

Fixpoint drop_space (s : QString) : QString :=
  match s with
  | [] => []
  | c :: s' => if QChar_isSpace c then drop_space s' else s
  end.

(** [QString::trimmed]: whitespace removed from the start and the end. *)
Definition QString_trimmed (s : QString) : QString :=
  rev (drop_space (rev (drop_space s))).

(** [static const QRegExp regExp("[^a-zA-Z0-9 -_,;.:!#%&/()=?@£$+]")]
    (line 685).  Between the space and the underscore stands a dash, so
    these three characters form the range U+0020 .. U+005F. *)
Definition regExp : QRegExp :=
  mkRegExp true
    [ Range 97 122; Range 65 90; Range 48 57; Range 32 95;
      Single 44; Single 59; Single 46; Single 58; Single 33; Single 35;
      Single 37; Single 38; Single 47; Single 40; Single 41; Single 61;
      Single 63; Single 64; Single 163; Single 36; Single 43 ].

(** [str.remove(regExp).trimmed()] (line 688). *)
Definition sanitize (str : QString) : QString :=
  QString_trimmed (QString_remove regExp str).

(** ** Enumerations *)

Inductive SearchMode : Type := SearchFast | SearchGetStationId.
Inductive TunerState : Type := ActiveState | StoppedState.
Inductive TunerError : Type :=
  NoError | ResourceError | OpenError | OutOfRangeError.
Inductive RdsError : Type := RdsNoError | RdsResourceError | RdsOpenError.
Inductive radio_direction_t : Type := RADIO_DIRECTION_UP | RADIO_DIRECTION_DOWN.
Inductive radio_rds_t : Type := RADIO_RDS_NONE | RADIO_RDS_WORLD | RADIO_RDS_US.

Definition SearchMode_eqb (a b : SearchMode) : bool :=
  match a, b with
  | SearchFast, SearchFast | SearchGetStationId, SearchGetStationId => true
  | _, _ => false
  end.

Definition TunerError_eqb (a b : TunerError) : bool :=
  match a, b with
  | NoError, NoError | ResourceError, ResourceError
  | OpenError, OpenError | OutOfRangeError, OutOfRangeError => true
  | _, _ => false
  end.

Definition RdsError_eqb (a b : RdsError) : bool :=
  match a, b with
  | RdsNoError, RdsNoError | RdsResourceError, RdsResourceError
  | RdsOpenError, RdsOpenError => true
  | _, _ => false
  end.

Definition radio_rds_eqb (a b : radio_rds_t) : bool :=
  match a, b with
  | RADIO_RDS_NONE, RADIO_RDS_NONE | RADIO_RDS_WORLD, RADIO_RDS_WORLD
  | RADIO_RDS_US, RADIO_RDS_US => true
  | _, _ => false
  end.

(** [radio_band_t] of system/radio.h: AM = 0, FM = 1. *)
Definition RADIO_BAND_FM : Z := 1.

(** ** Signals and HAL commands *)

(** The signals of the class that reach the framework, and
    [seekNextChannel], which Qt queues to the slot [searchForward]. *)
Inductive Signal : Type :=
| stateChanged (state : TunerState)
| frequencyChanged (frequency : Z)
| stereoStatusChanged (stereo : bool)
| searchingChanged (searching : bool)
| error (err : TunerError)
| error_rds (err : RdsError)
| stationFound (frequency : Z) (stationId : QString)
| antennaConnectedChanged (connectionStatus : bool)
| stationIdChanged (stationId : QString)
| programTypeChanged (programType : Z)
| programTypeNameChanged (programTypeName : string)
| stationNameChanged (stationName : QString)
| radioTextChanged (radioText : QString)
| seekNextChannel.

(** The calls made through [radio_hw_device_t] and [radio_tuner]. *)
Inductive HalCommand : Type :=
| open_tuner
| close_tuner
| scan (direction : radio_direction_t)
| tune (channel : Z)
| cancel.

(** ** The state

    [hal_radiohw] and [hal_tuner] say whether the pointers [m_hal->radiohw]
    and [m_hal->tuner] are set; the [config_] fields are those of
    [m_hal->config] that the class reads; [m_seekTimer] says whether the
    seek timer runs.  The [m_] fields are the members of the class.
    [emitted] and [hal_calls] log the signals emitted and the HAL functions
    called, oldest first, and [hal_returns] holds the codes the next HAL
    calls return. *)

Record State := mkState {
  hal_radiohw : bool;
  hal_tuner : bool;
  config_lower_limit : Z;
  config_upper_limit : Z;
  config_fm_rds : radio_rds_t;
  m_error : TunerError;
  m_rdsError : RdsError;
  m_tunerReady : bool;
  m_antennaConnected : bool;
  m_stereoEnabled : bool;
  m_currentFreq : Z;
  m_searchMode : SearchMode;
  m_seekTimer : bool;
  m_searching : bool;
  m_searchAll : bool;
  m_searchAllLast : bool;
  m_searchWaitForRDS : bool;
  m_firstFoundFrequency : Z;
  m_searchRange : Z;
  m_lastFrequency : Z;
  m_stationId : QString;
  m_stationName : QString;
  m_programType : Z;
  m_radioText : QString;
  emitted : list Signal;
  hal_calls : list HalCommand;
  hal_returns : list Z
}.

(** Field updates, one for each field the code writes. *)

Definition set_hal_tuner (v : bool) (s : State) : State :=
  mkState (hal_radiohw s) v (config_lower_limit s) (config_upper_limit s)
    (config_fm_rds s) (m_error s) (m_rdsError s) (m_tunerReady s)
    (m_antennaConnected s) (m_stereoEnabled s) (m_currentFreq s)
    (m_searchMode s) (m_seekTimer s) (m_searching s) (m_searchAll s)
    (m_searchAllLast s) (m_searchWaitForRDS s) (m_firstFoundFrequency s)
    (m_searchRange s) (m_lastFrequency s) (m_stationId s) (m_stationName s)
    (m_programType s) (m_radioText s) (emitted s) (hal_calls s)
    (hal_returns s).
Definition set_m_error (v : TunerError) (s : State) : State :=
  mkState (hal_radiohw s) (hal_tuner s) (config_lower_limit s)
    (config_upper_limit s) (config_fm_rds s) v (m_rdsError s) (m_tunerReady s)
    (m_antennaConnected s) (m_stereoEnabled s) (m_currentFreq s)
    (m_searchMode s) (m_seekTimer s) (m_searching s) (m_searchAll s)
    (m_searchAllLast s) (m_searchWaitForRDS s) (m_firstFoundFrequency s)
    (m_searchRange s) (m_lastFrequency s) (m_stationId s) (m_stationName s)
    (m_programType s) (m_radioText s) (emitted s) (hal_calls s)
    (hal_returns s).
Definition set_m_rdsError (v : RdsError) (s : State) : State :=
  mkState (hal_radiohw s) (hal_tuner s) (config_lower_limit s)
    (config_upper_limit s) (config_fm_rds s) (m_error s) v (m_tunerReady s)
    (m_antennaConnected s) (m_stereoEnabled s) (m_currentFreq s)
    (m_searchMode s) (m_seekTimer s) (m_searching s) (m_searchAll s)
    (m_searchAllLast s) (m_searchWaitForRDS s) (m_firstFoundFrequency s)
    (m_searchRange s) (m_lastFrequency s) (m_stationId s) (m_stationName s)
    (m_programType s) (m_radioText s) (emitted s) (hal_calls s)
    (hal_returns s).
Definition set_m_tunerReady (v : bool) (s : State) : State :=
  mkState (hal_radiohw s) (hal_tuner s) (config_lower_limit s)
    (config_upper_limit s) (config_fm_rds s) (m_error s) (m_rdsError s) v
    (m_antennaConnected s) (m_stereoEnabled s) (m_currentFreq s)
    (m_searchMode s) (m_seekTimer s) (m_searching s) (m_searchAll s)
    (m_searchAllLast s) (m_searchWaitForRDS s) (m_firstFoundFrequency s)
    (m_searchRange s) (m_lastFrequency s) (m_stationId s) (m_stationName s)
    (m_programType s) (m_radioText s) (emitted s) (hal_calls s)
    (hal_returns s).
Definition set_m_antennaConnected (v : bool) (s : State) : State :=
  mkState (hal_radiohw s) (hal_tuner s) (config_lower_limit s)
    (config_upper_limit s) (config_fm_rds s) (m_error s) (m_rdsError s)
    (m_tunerReady s) v (m_stereoEnabled s) (m_currentFreq s) (m_searchMode s)
    (m_seekTimer s) (m_searching s) (m_searchAll s) (m_searchAllLast s)
    (m_searchWaitForRDS s) (m_firstFoundFrequency s) (m_searchRange s)
    (m_lastFrequency s) (m_stationId s) (m_stationName s) (m_programType s)
    (m_radioText s) (emitted s) (hal_calls s) (hal_returns s).
Definition set_m_stereoEnabled (v : bool) (s : State) : State :=
  mkState (hal_radiohw s) (hal_tuner s) (config_lower_limit s)
    (config_upper_limit s) (config_fm_rds s) (m_error s) (m_rdsError s)
    (m_tunerReady s) (m_antennaConnected s) v (m_currentFreq s)
    (m_searchMode s) (m_seekTimer s) (m_searching s) (m_searchAll s)
    (m_searchAllLast s) (m_searchWaitForRDS s) (m_firstFoundFrequency s)
    (m_searchRange s) (m_lastFrequency s) (m_stationId s) (m_stationName s)
    (m_programType s) (m_radioText s) (emitted s) (hal_calls s)
    (hal_returns s).
Definition set_m_currentFreq (v : Z) (s : State) : State :=
  mkState (hal_radiohw s) (hal_tuner s) (config_lower_limit s)
    (config_upper_limit s) (config_fm_rds s) (m_error s) (m_rdsError s)
    (m_tunerReady s) (m_antennaConnected s) (m_stereoEnabled s) v
    (m_searchMode s) (m_seekTimer s) (m_searching s) (m_searchAll s)
    (m_searchAllLast s) (m_searchWaitForRDS s) (m_firstFoundFrequency s)
    (m_searchRange s) (m_lastFrequency s) (m_stationId s) (m_stationName s)
    (m_programType s) (m_radioText s) (emitted s) (hal_calls s)
    (hal_returns s).
Definition set_m_searchMode (v : SearchMode) (s : State) : State :=
  mkState (hal_radiohw s) (hal_tuner s) (config_lower_limit s)
    (config_upper_limit s) (config_fm_rds s) (m_error s) (m_rdsError s)
    (m_tunerReady s) (m_antennaConnected s) (m_stereoEnabled s)
    (m_currentFreq s) v (m_seekTimer s) (m_searching s) (m_searchAll s)
    (m_searchAllLast s) (m_searchWaitForRDS s) (m_firstFoundFrequency s)
    (m_searchRange s) (m_lastFrequency s) (m_stationId s) (m_stationName s)
    (m_programType s) (m_radioText s) (emitted s) (hal_calls s)
    (hal_returns s).
Definition set_m_seekTimer (v : bool) (s : State) : State :=
  mkState (hal_radiohw s) (hal_tuner s) (config_lower_limit s)
    (config_upper_limit s) (config_fm_rds s) (m_error s) (m_rdsError s)
    (m_tunerReady s) (m_antennaConnected s) (m_stereoEnabled s)
    (m_currentFreq s) (m_searchMode s) v (m_searching s) (m_searchAll s)
    (m_searchAllLast s) (m_searchWaitForRDS s) (m_firstFoundFrequency s)
    (m_searchRange s) (m_lastFrequency s) (m_stationId s) (m_stationName s)
    (m_programType s) (m_radioText s) (emitted s) (hal_calls s)
    (hal_returns s).
Definition set_m_searching (v : bool) (s : State) : State :=
  mkState (hal_radiohw s) (hal_tuner s) (config_lower_limit s)
    (config_upper_limit s) (config_fm_rds s) (m_error s) (m_rdsError s)
    (m_tunerReady s) (m_antennaConnected s) (m_stereoEnabled s)
    (m_currentFreq s) (m_searchMode s) (m_seekTimer s) v (m_searchAll s)
    (m_searchAllLast s) (m_searchWaitForRDS s) (m_firstFoundFrequency s)
    (m_searchRange s) (m_lastFrequency s) (m_stationId s) (m_stationName s)
    (m_programType s) (m_radioText s) (emitted s) (hal_calls s)
    (hal_returns s).
Definition set_m_searchAll (v : bool) (s : State) : State :=
  mkState (hal_radiohw s) (hal_tuner s) (config_lower_limit s)
    (config_upper_limit s) (config_fm_rds s) (m_error s) (m_rdsError s)
    (m_tunerReady s) (m_antennaConnected s) (m_stereoEnabled s)
    (m_currentFreq s) (m_searchMode s) (m_seekTimer s) (m_searching s) v
    (m_searchAllLast s) (m_searchWaitForRDS s) (m_firstFoundFrequency s)
    (m_searchRange s) (m_lastFrequency s) (m_stationId s) (m_stationName s)
    (m_programType s) (m_radioText s) (emitted s) (hal_calls s)
    (hal_returns s).
Definition set_m_searchAllLast (v : bool) (s : State) : State :=
  mkState (hal_radiohw s) (hal_tuner s) (config_lower_limit s)
    (config_upper_limit s) (config_fm_rds s) (m_error s) (m_rdsError s)
    (m_tunerReady s) (m_antennaConnected s) (m_stereoEnabled s)
    (m_currentFreq s) (m_searchMode s) (m_seekTimer s) (m_searching s)
    (m_searchAll s) v (m_searchWaitForRDS s) (m_firstFoundFrequency s)
    (m_searchRange s) (m_lastFrequency s) (m_stationId s) (m_stationName s)
    (m_programType s) (m_radioText s) (emitted s) (hal_calls s)
    (hal_returns s).
Definition set_m_searchWaitForRDS (v : bool) (s : State) : State :=
  mkState (hal_radiohw s) (hal_tuner s) (config_lower_limit s)
    (config_upper_limit s) (config_fm_rds s) (m_error s) (m_rdsError s)
    (m_tunerReady s) (m_antennaConnected s) (m_stereoEnabled s)
    (m_currentFreq s) (m_searchMode s) (m_seekTimer s) (m_searching s)
    (m_searchAll s) (m_searchAllLast s) v (m_firstFoundFrequency s)
    (m_searchRange s) (m_lastFrequency s) (m_stationId s) (m_stationName s)
    (m_programType s) (m_radioText s) (emitted s) (hal_calls s)
    (hal_returns s).
Definition set_m_firstFoundFrequency (v : Z) (s : State) : State :=
  mkState (hal_radiohw s) (hal_tuner s) (config_lower_limit s)
    (config_upper_limit s) (config_fm_rds s) (m_error s) (m_rdsError s)
    (m_tunerReady s) (m_antennaConnected s) (m_stereoEnabled s)
    (m_currentFreq s) (m_searchMode s) (m_seekTimer s) (m_searching s)
    (m_searchAll s) (m_searchAllLast s) (m_searchWaitForRDS s) v
    (m_searchRange s) (m_lastFrequency s) (m_stationId s) (m_stationName s)
    (m_programType s) (m_radioText s) (emitted s) (hal_calls s)
    (hal_returns s).
Definition set_m_searchRange (v : Z) (s : State) : State :=
  mkState (hal_radiohw s) (hal_tuner s) (config_lower_limit s)
    (config_upper_limit s) (config_fm_rds s) (m_error s) (m_rdsError s)
    (m_tunerReady s) (m_antennaConnected s) (m_stereoEnabled s)
    (m_currentFreq s) (m_searchMode s) (m_seekTimer s) (m_searching s)
    (m_searchAll s) (m_searchAllLast s) (m_searchWaitForRDS s)
    (m_firstFoundFrequency s) v (m_lastFrequency s) (m_stationId s)
    (m_stationName s) (m_programType s) (m_radioText s) (emitted s)
    (hal_calls s) (hal_returns s).
Definition set_m_lastFrequency (v : Z) (s : State) : State :=
  mkState (hal_radiohw s) (hal_tuner s) (config_lower_limit s)
    (config_upper_limit s) (config_fm_rds s) (m_error s) (m_rdsError s)
    (m_tunerReady s) (m_antennaConnected s) (m_stereoEnabled s)
    (m_currentFreq s) (m_searchMode s) (m_seekTimer s) (m_searching s)
    (m_searchAll s) (m_searchAllLast s) (m_searchWaitForRDS s)
    (m_firstFoundFrequency s) (m_searchRange s) v (m_stationId s)
    (m_stationName s) (m_programType s) (m_radioText s) (emitted s)
    (hal_calls s) (hal_returns s).
Definition set_m_stationId (v : QString) (s : State) : State :=
  mkState (hal_radiohw s) (hal_tuner s) (config_lower_limit s)
    (config_upper_limit s) (config_fm_rds s) (m_error s) (m_rdsError s)
    (m_tunerReady s) (m_antennaConnected s) (m_stereoEnabled s)
    (m_currentFreq s) (m_searchMode s) (m_seekTimer s) (m_searching s)
    (m_searchAll s) (m_searchAllLast s) (m_searchWaitForRDS s)
    (m_firstFoundFrequency s) (m_searchRange s) (m_lastFrequency s) v
    (m_stationName s) (m_programType s) (m_radioText s) (emitted s)
    (hal_calls s) (hal_returns s).
Definition set_m_stationName (v : QString) (s : State) : State :=
  mkState (hal_radiohw s) (hal_tuner s) (config_lower_limit s)
    (config_upper_limit s) (config_fm_rds s) (m_error s) (m_rdsError s)
    (m_tunerReady s) (m_antennaConnected s) (m_stereoEnabled s)
    (m_currentFreq s) (m_searchMode s) (m_seekTimer s) (m_searching s)
    (m_searchAll s) (m_searchAllLast s) (m_searchWaitForRDS s)
    (m_firstFoundFrequency s) (m_searchRange s) (m_lastFrequency s)
    (m_stationId s) v (m_programType s) (m_radioText s) (emitted s)
    (hal_calls s) (hal_returns s).
Definition set_m_programType (v : Z) (s : State) : State :=
  mkState (hal_radiohw s) (hal_tuner s) (config_lower_limit s)
    (config_upper_limit s) (config_fm_rds s) (m_error s) (m_rdsError s)
    (m_tunerReady s) (m_antennaConnected s) (m_stereoEnabled s)
    (m_currentFreq s) (m_searchMode s) (m_seekTimer s) (m_searching s)
    (m_searchAll s) (m_searchAllLast s) (m_searchWaitForRDS s)
    (m_firstFoundFrequency s) (m_searchRange s) (m_lastFrequency s)
    (m_stationId s) (m_stationName s) v (m_radioText s) (emitted s)
    (hal_calls s) (hal_returns s).
Definition set_m_radioText (v : QString) (s : State) : State :=
  mkState (hal_radiohw s) (hal_tuner s) (config_lower_limit s)
    (config_upper_limit s) (config_fm_rds s) (m_error s) (m_rdsError s)
    (m_tunerReady s) (m_antennaConnected s) (m_stereoEnabled s)
    (m_currentFreq s) (m_searchMode s) (m_seekTimer s) (m_searching s)
    (m_searchAll s) (m_searchAllLast s) (m_searchWaitForRDS s)
    (m_firstFoundFrequency s) (m_searchRange s) (m_lastFrequency s)
    (m_stationId s) (m_stationName s) (m_programType s) v (emitted s)
    (hal_calls s) (hal_returns s).
Definition set_emitted (v : list Signal) (s : State) : State :=
  mkState (hal_radiohw s) (hal_tuner s) (config_lower_limit s)
    (config_upper_limit s) (config_fm_rds s) (m_error s) (m_rdsError s)
    (m_tunerReady s) (m_antennaConnected s) (m_stereoEnabled s)
    (m_currentFreq s) (m_searchMode s) (m_seekTimer s) (m_searching s)
    (m_searchAll s) (m_searchAllLast s) (m_searchWaitForRDS s)
    (m_firstFoundFrequency s) (m_searchRange s) (m_lastFrequency s)
    (m_stationId s) (m_stationName s) (m_programType s) (m_radioText s) v
    (hal_calls s) (hal_returns s).
Definition set_hal_calls (v : list HalCommand) (s : State) : State :=
  mkState (hal_radiohw s) (hal_tuner s) (config_lower_limit s)
    (config_upper_limit s) (config_fm_rds s) (m_error s) (m_rdsError s)
    (m_tunerReady s) (m_antennaConnected s) (m_stereoEnabled s)
    (m_currentFreq s) (m_searchMode s) (m_seekTimer s) (m_searching s)
    (m_searchAll s) (m_searchAllLast s) (m_searchWaitForRDS s)
    (m_firstFoundFrequency s) (m_searchRange s) (m_lastFrequency s)
    (m_stationId s) (m_stationName s) (m_programType s) (m_radioText s)
    (emitted s) v (hal_returns s).
Definition set_hal_returns (v : list Z) (s : State) : State :=
  mkState (hal_radiohw s) (hal_tuner s) (config_lower_limit s)
    (config_upper_limit s) (config_fm_rds s) (m_error s) (m_rdsError s)
    (m_tunerReady s) (m_antennaConnected s) (m_stereoEnabled s)
    (m_currentFreq s) (m_searchMode s) (m_seekTimer s) (m_searching s)
    (m_searchAll s) (m_searchAllLast s) (m_searchWaitForRDS s)
    (m_firstFoundFrequency s) (m_searchRange s) (m_lastFrequency s)
    (m_stationId s) (m_stationName s) (m_programType s) (m_radioText s)
    (emitted s) (hal_calls s) v.

(** ** The state monad *)

Definition M (A : Type) : Type := State -> A * State.

Definition ret {A} (a : A) : M A := fun s => (a, s).

Definition bind {A B} (m : M A) (k : A -> M B) : M B :=
  fun s => let (a, s') := m s in k a s'.

Definition gets {A} (f : State -> A) : M A := fun s => (f s, s).
Definition modify (f : State -> State) : M unit := fun s => (tt, f s).
Definition when (b : bool) (m : M unit) : M unit := if b then m else ret tt.

(** The state a computation ends in, and the value it returns. *)
Definition exec {A} (m : M A) (s : State) : State := snd (m s).
Definition eval {A} (m : M A) (s : State) : A := fst (m s).

Declare Scope radio_scope.
Delimit Scope radio_scope with radio.
Notation "x <- c1 ;; c2" := (bind c1 (fun x => c2))
  (at level 61, c1 at next level, right associativity) : radio_scope.
Notation "c1 ;; c2" := (bind c1 (fun _ => c2))
  (at level 61, right associativity) : radio_scope.
Local Open Scope radio_scope.

(** [emit sig(...)]: the signal is appended to the log. *)
Definition emit (sig : Signal) : M unit :=
  modify (fun s => set_emitted (emitted s ++ [sig]) s).

(** A call into the HAL: the command is logged and the call returns the
    next code of the script [hal_returns], 0 (success) when the script is
    used up. *)
Definition hal_call (cmd : HalCommand) : M Z :=
  fun s =>
    (hd 0 (hal_returns s),
     set_hal_returns (tl (hal_returns s))
       (set_hal_calls (hal_calls s ++ [cmd]) s)).

(** ** Program-type tables (lines 959-1084) *)

Definition rbdsTypes : list Z :=
  [0; 1; 3; 4; 32; 11; 33; 34; 35; 36; 25; 27; 37; 38; 24; 39;
   40; 41; 42; 43; 44; 45; 46; 47; 0; 0; 0; 0; 0; 16; 30; 31].

Definition programTypeValue (rdsStandard : Z) (type : Z) : Z :=
  let type := if 32 <=? type then 0 else type in
  if rdsStandard =? 0 then type else nth (Z.to_nat type) rbdsTypes 0.

Definition rbdsTypeNames : list string :=
  [ "No program type or undefined"; "News"; "Information"; "Sports";
    "Talk"; "Rock"; "Classic rock"; "Adult hits"; "Soft rock"; "Top 40";
    "Country"; "Oldies"; "Soft"; "Nostalgia"; "Jazz"; "Classical";
    "Rhythm and blues"; "Soft rhythm and blues"; "Language";
    "Religious music"; "Religious talk"; "Personality"; "Public";
    "College"; "Spanish Talk"; "Spanish Music"; "Hip Hop"; "Unassigned";
    "Unassigned"; "Weather"; "Emergency test"; "Emergency" ]%string.

Definition rdsTypeNames : list string :=
  [ "No programme type or undefined"; "News"; "Current affairs";
    "Information"; "Sport"; "Education"; "Drama"; "Culture"; "Science";
    "Varied"; "Pop music"; "Rock music"; "Easy listening";
    "Light classical"; "Serious classical"; "Other music"; "Weather";
    "Finance"; "Children’s programmes"; "Social affairs"; "Religion";
    "Phone-in"; "Travel"; "Leisure"; "Jazz music"; "Country music";
    "National music"; "Oldies music"; "Folk music"; "Documentary";
    "Alarm test"; "Alarm" ]%string.

(** The untranslated source text stands for [tr(...)]. *)
Definition programTypeNameString (rdsStandard : Z) (type : Z) : string :=
  let type := if 32 <=? type then 0 else type in
  if rdsStandard =? 0 then nth (Z.to_nat type) rdsTypeNames ""%string
  else nth (Z.to_nat type) rbdsTypeNames ""%string.

(** ** Member functions *)

(** [tunerEnabled] (line 274); [m_hal] is never null once constructed. *)
Definition tunerEnabled : M bool :=
  gets (fun s => hal_tuner s && m_tunerReady s).

(** [resetRDS] (line 400). *)
Definition resetRDS : M unit :=
  radioText <- gets m_radioText ;;
  when (negb (QString_isEmpty radioText))
    (modify (set_m_radioText []) ;; emit (radioTextChanged [])) ;;
  stationName <- gets m_stationName ;;
  when (negb (QString_isEmpty stationName))
    (modify (set_m_stationName []) ;; emit (stationNameChanged [])) ;;
  programType <- gets m_programType ;;
  when (negb (programType =? 0))
    (modify (set_m_programType 0) ;;
     emit (programTypeChanged (programTypeValue 0 0)) ;;
     emit (programTypeNameChanged (programTypeNameString 0 0))) ;;
  stationId <- gets m_stationId ;;
  when (negb (QString_isEmpty stationId))
    (modify (set_m_stationId []) ;; emit (stationIdChanged [])).

(** [setSearching] (line 424). *)
Definition setSearching (searching : bool) : M unit :=
  active <- gets m_seekTimer ;;
  when (negb searching && active) (modify (set_m_seekTimer false)) ;;
  old <- gets m_searching ;;
  when (negb (Bool.eqb old searching))
    (modify (set_m_searching searching) ;; emit (searchingChanged searching)).

(** [setStereoEnabled] (line 435). *)
Definition setStereoEnabled (enabled : bool) : M unit :=
  old <- gets m_stereoEnabled ;;
  when (negb (Bool.eqb enabled old))
    (modify (set_m_stereoEnabled enabled) ;;
     emit (stereoStatusChanged enabled)).

(** [setError] and [setRdsError] (lines 855, 863). *)
Definition setError (newError : TunerError) : M unit :=
  old <- gets m_error ;;
  when (negb (TunerError_eqb newError old))
    (modify (set_m_error newError) ;; emit (error newError)).

Definition setRdsError (newError : RdsError) : M unit :=
  old <- gets m_rdsError ;;
  when (negb (RdsError_eqb newError old))
    (modify (set_m_rdsError newError) ;; emit (error_rds newError)).

(** [seek] (line 381).  A failed scan is only logged. *)
Definition seek (direction : radio_direction_t) : M unit :=
  enabled <- tunerEnabled ;;
  if negb enabled then ret tt
  else
    searchAll <- gets m_searchAll ;;
    when (negb searchAll) resetRDS ;;
    modify (set_m_seekTimer true) ;;
    r <- hal_call (scan direction) ;;
    if r =? 0 then
      searchAll <- gets m_searchAll ;;
      when (negb searchAll) (setSearching true)
    else ret tt.

Definition searchForward : M unit := seek RADIO_DIRECTION_UP.
Definition searchBackward : M unit := seek RADIO_DIRECTION_DOWN.

(** [cancelSearch] (line 522). *)
Definition cancelSearch : M unit :=
  searching <- gets m_searching ;;
  enabled <- tunerEnabled ;;
  if negb searching || negb enabled then ret tt
  else
    _ <- hal_call cancel ;;
    modify (set_m_searchAll false) ;;
    modify (set_m_searchAllLast false) ;;
    modify (set_m_searchWaitForRDS false) ;;
    setSearching false.

(** [handleSeekTimeout] (line 454), the slot of the 10 s seek timer. *)
Definition handleSeekTimeout : M unit :=
  searchAll <- gets m_searchAll ;;
  if searchAll then
    searchMode <- gets m_searchMode ;;
    if SearchMode_eqb searchMode SearchFast then cancelSearch
    else
      firstFound <- gets m_firstFoundFrequency ;;
      if firstFound =? 0 then cancelSearch
      else
        currentFreq <- gets m_currentFreq ;;
        stationId <- gets m_stationId ;;
        emit (stationFound (FREQ_HAL_TO_QT currentFreq) stationId) ;;
        searchForward
  else cancelSearch.

(** [searchAllStations] (line 474). *)
Definition searchAllStations (searchMode : SearchMode) : M unit :=
  resetRDS ;;
  rds <- gets config_fm_rds ;;
  modify (set_m_searchMode
            (if radio_rds_eqb rds RADIO_RDS_NONE then SearchFast
             else searchMode)) ;;
  mode <- gets m_searchMode ;;
  when (SearchMode_eqb mode SearchGetStationId)
    (modify (set_m_searchWaitForRDS true)) ;;
  modify (set_m_searchAll true) ;;
  modify (set_m_searchAllLast false) ;;
  modify (set_m_firstFoundFrequency 0) ;;
  upper <- gets config_upper_limit ;;
  lower <- gets config_lower_limit ;;
  modify (set_m_searchRange (to_int (usub upper lower))) ;;
  currentFreq <- gets m_currentFreq ;;
  modify (set_m_lastFrequency (usub currentFreq lower)) ;;
  setSearching true ;;
  searchForward.

(** [setTuning] (line 546). *)
Definition setTuning : M unit :=
  tuner <- gets hal_tuner ;;
  currentFreq <- gets m_currentFreq ;;
  if negb tuner || (currentFreq =? 0) then ret tt
  else _ <- hal_call (tune currentFreq) ;; ret tt.

(** [setFrequency] (line 311). *)
Definition setFrequency (newFrequency : Z) : M unit :=
  let frequency := FREQ_QT_TO_HAL newFrequency in
  currentFreq <- gets m_currentFreq ;;
  if frequency =? currentFreq then ret tt
  else
    lower <- gets config_lower_limit ;;
    upper <- gets config_upper_limit ;;
    let frequency := if frequency <? lower then lower else frequency in
    let frequency := if upper <? frequency then upper else frequency in
    modify (set_m_currentFreq frequency) ;;
    enabled <- tunerEnabled ;;
    if negb enabled then ret tt
    else resetRDS ;; setTuning.

(** [start] (line 816).  On success the HAL stores the tuner handle. *)
Definition start : M unit :=
  radiohw <- gets hal_radiohw ;;
  tuner <- gets hal_tuner ;;
  if negb radiohw || tuner then ret tt
  else
    modify (set_m_searching false) ;;
    modify (set_m_searchAll false) ;;
    modify (set_m_searchAllLast false) ;;
    r <- hal_call open_tuner ;;
    when (r =? 0) (modify (set_hal_tuner true)).

(** [stop] (line 835). *)
Definition stop : M unit :=
  radiohw <- gets hal_radiohw ;;
  tuner <- gets hal_tuner ;;
  if negb radiohw || negb tuner then ret tt
  else
    cancelSearch ;;
    modify (set_m_tunerReady false) ;;
    _ <- hal_call close_tuner ;;
    modify (set_hal_tuner false) ;;
    emit (stateChanged StoppedState).

(** [handleHwFailure] (line 539). *)
Definition handleHwFailure : M unit :=
  setError ResourceError ;; stop.

(** [handleConfig] (line 558). *)
Definition handleConfig (band : Z) (stereo : bool) : M unit :=
  ready <- gets m_tunerReady ;;
  when (negb ready)
    (modify (set_m_tunerReady true) ;;
     setError NoError ;;
     setTuning ;;
     emit (stateChanged ActiveState)) ;;
  when (band =? RADIO_BAND_FM) (setStereoEnabled stereo).

(** [handleAntenna] (line 572). *)
Definition handleAntenna (connected : bool) : M unit :=
  old <- gets m_antennaConnected ;;
  when (negb (Bool.eqb connected old))
    (modify (set_m_antennaConnected connected) ;;
     emit (antennaConnectedChanged connected)).

(** The [reduce] of [tunedSearchAll] (lines 594-598): the distance from
    the previous position, both relative to the lower band limit. *)
Definition reduce_distance (lower upper lastFrequency channel : Z) : Z :=
  let channelRelative := usub channel lower in
  if lastFrequency <=? channelRelative
  then to_int (usub channelRelative lastFrequency)
  else to_int (uadd (usub (usub upper lower) lastFrequency) channelRelative).

(** [tunedSearchAll] (line 581); [true] means that the sweep goes on. *)
Definition tunedSearchAll (channel : Z) : M bool :=
  lower <- gets config_lower_limit ;;
  upper <- gets config_upper_limit ;;
  searchMode <- gets m_searchMode ;;
  firstFound <- gets m_firstFoundFrequency ;;
  (if 0 <? firstFound then
     when (SearchMode_eqb searchMode SearchFast)
       (stationId <- gets m_stationId ;;
        emit (stationFound (FREQ_HAL_TO_QT channel) stationId))
   else modify (set_m_firstFoundFrequency channel)) ;;
  lastFrequency <- gets m_lastFrequency ;;
  let reduce := reduce_distance lower upper lastFrequency channel in
  searchRange <- gets m_searchRange ;;
  modify (set_m_searchRange (isub searchRange reduce)) ;;
  modify (set_m_lastFrequency (usub channel lower)) ;;
  searchRange <- gets m_searchRange ;;
  if 0 <? searchRange then
    if SearchMode_eqb searchMode SearchFast
    then searchForward ;; ret true
    else ret true
  else
    firstFound <- gets m_firstFoundFrequency ;;
    if negb (firstFound =? channel) then
      if SearchMode_eqb searchMode SearchFast then
        stationId <- gets m_stationId ;;
        emit (stationFound (FREQ_HAL_TO_QT firstFound) stationId) ;;
        modify (set_m_searchAllLast true) ;;
        ret false
      else
        modify (set_m_searchAllLast true) ;;
        ret true
    else
      modify (set_m_searchAllLast true) ;;
      ret false.

(** The end of [handleTuned] (lines 640-653), reached unless
    [tunedSearchAll] asked to go on. *)
Definition handleTuned_done (stereo : bool) : M unit :=
  searchAllLast <- gets m_searchAllLast ;;
  when searchAllLast
    (modify (set_m_searchAllLast false) ;;
     modify (set_m_searchAll false) ;;
     modify (set_m_searchWaitForRDS false) ;;
     setSearching false) ;;
  currentFreq <- gets m_currentFreq ;;
  emit (frequencyChanged (FREQ_HAL_TO_QT currentFreq)) ;;
  setSearching false ;;
  setStereoEnabled stereo.

(** [handleTuned] (line 631). *)
Definition handleTuned (channel : Z) (stereo : bool) : M unit :=
  modify (set_m_currentFreq channel) ;;
  searchAllLast <- gets m_searchAllLast ;;
  searchAll <- gets m_searchAll ;;
  continue <- (if negb searchAllLast && searchAll
               then tunedSearchAll channel else ret false) ;;
  if continue then ret tt else handleTuned_done stereo.

(** ** Metadata events (line 657) *)

Inductive radio_metadata_key_t : Type :=
| RADIO_METADATA_KEY_RDS_PI
| RADIO_METADATA_KEY_RDS_PS
| RADIO_METADATA_KEY_RDS_PTY
| RADIO_METADATA_KEY_RBDS_PTY
| RADIO_METADATA_KEY_TITLE
| RADIO_METADATA_KEY_OTHER.

(** The value of a record with its type tag: the text of a
    [RADIO_METADATA_TYPE_TEXT] value as [QString::fromUtf8] decodes it,
    the [unsigned] of a [RADIO_METADATA_TYPE_INT] value, or another type. *)
Inductive metadata_value : Type :=
| TYPE_TEXT (text : QString)
| TYPE_INT (integer : Z)
| TYPE_OTHER.

(** One record, with the code [radio_metadata_get_at_index] returns
    for it. *)
Record metadata_item := mkItem {
  item_ret : Z;
  item_key : radio_metadata_key_t;
  item_value : metadata_value
}.

(** A metadata block, with the code [radio_metadata_check] returns. *)
Record radio_metadata_t := mkMetadata {
  check_ret : Z;
  items : list metadata_item
}.

(** The body of the [switch (dataType)] for one record. *)
Definition handleMetadataItem (key : radio_metadata_key_t)
    (value : metadata_value) : M unit :=
  match value with
  | TYPE_TEXT text =>
      let str := sanitize text in
      match key with
      | RADIO_METADATA_KEY_RDS_PI =>
          stationId <- gets m_stationId ;;
          when (negb (QString_eqb stationId str))
            (modify (set_m_stationId str) ;;
             waitForRDS <- gets m_searchWaitForRDS ;;
             if waitForRDS then
               currentFreq <- gets m_currentFreq ;;
               emit (stationFound (FREQ_HAL_TO_QT currentFreq) str) ;;
               emit seekNextChannel
             else emit (stationIdChanged str))
      | RADIO_METADATA_KEY_RDS_PS =>
          stationName <- gets m_stationName ;;
          when (negb (QString_eqb stationName str))
            (modify (set_m_stationName str) ;;
             emit (stationNameChanged str))
      | RADIO_METADATA_KEY_TITLE =>
          radioText <- gets m_radioText ;;
          when (negb (QString_eqb radioText str))
            (modify (set_m_radioText str) ;;
             emit (radioTextChanged str))
      | _ => ret tt
      end
  | TYPE_INT integer =>
      match key with
      | RADIO_METADATA_KEY_RDS_PTY =>
          programType <- gets m_programType ;;
          when (negb (programType =? integer))
            (modify (set_m_programType integer) ;;
             emit (programTypeChanged (programTypeValue 0 integer)) ;;
             emit (programTypeNameChanged (programTypeNameString 0 integer)))
      | RADIO_METADATA_KEY_RBDS_PTY =>
          programType <- gets m_programType ;;
          when (negb (programType =? integer))
            (modify (set_m_programType integer) ;;
             emit (programTypeChanged (programTypeValue 1 integer)) ;;
             emit (programTypeNameChanged (programTypeNameString 1 integer)))
      | _ => ret tt
      end
  | TYPE_OTHER => ret tt
  end.

(** The [for] loop over the records; a failing
    [metadata_get_at_index] ends the handler. *)
Fixpoint handleMetadataItems (l : list metadata_item) : M unit :=
  match l with
  | [] => ret tt
  | it :: rest =>
      if item_ret it =? 0 then
        handleMetadataItem (item_key it) (item_value it) ;;
        handleMetadataItems rest
      else ret tt
  end.

Definition handleMetadata (metadata : option radio_metadata_t) : M unit :=
  rdsError <- gets m_rdsError ;;
  match metadata with
  | None => ret tt
  | Some md =>
      if negb (RdsError_eqb rdsError RdsNoError) then ret tt
      else if negb (check_ret md =? 0) then ret tt
      else handleMetadataItems (items md)
  end.

(** [handleTA], [handleAFSwitch] and [handleEA] only log. *)
Definition handleTA (enabled : bool) : M unit := ret tt.
Definition handleAFSwitch (enabled : bool) : M unit := ret tt.
Definition handleEA (enabled : bool) : M unit := ret tt.

(** ** Event routing (line 768) *)

Inductive radio_hal_event_t : Type :=
| RADIO_EVENT_HW_FAILURE
| RADIO_EVENT_CONFIG (band : Z) (stereo : bool)
| RADIO_EVENT_ANTENNA (on : bool)
| RADIO_EVENT_TUNED (channel : Z) (stereo : bool)
| RADIO_EVENT_METADATA (metadata : option radio_metadata_t)
| RADIO_EVENT_TA (on : bool)
| RADIO_EVENT_AF_SWITCH (on : bool)
| RADIO_EVENT_EA (on : bool)
| RADIO_EVENT_INTERNAL.

(** [radioEvent]: each event runs the slot its signal is connected to. *)
Definition radioEvent (event : radio_hal_event_t) : M unit :=
  match event with
  | RADIO_EVENT_HW_FAILURE => handleHwFailure
  | RADIO_EVENT_CONFIG band stereo => handleConfig band stereo
  | RADIO_EVENT_ANTENNA on => handleAntenna on
  | RADIO_EVENT_TUNED channel stereo => handleTuned channel stereo
  | RADIO_EVENT_METADATA metadata => handleMetadata metadata
  | RADIO_EVENT_TA on => handleTA on
  | RADIO_EVENT_AF_SWITCH on => handleAFSwitch on
  | RADIO_EVENT_EA on => handleEA on
  | RADIO_EVENT_INTERNAL => ret tt
  end.

(** Everything that can run on the object once it is constructed: the
    public operations, the timer slot and the HAL events. *)
Inductive Operation : Type :=
| OpStart
| OpStop
| OpSetFrequency (frequency : Z)
| OpSearchForward
| OpSearchBackward
| OpSearchAllStations (searchMode : SearchMode)
| OpCancelSearch
| OpSeekTimeout
| OpRadioEvent (event : radio_hal_event_t).

Definition run_op (op : Operation) : M unit :=
  match op with
  | OpStart => start
  | OpStop => stop
  | OpSetFrequency f => setFrequency f
  | OpSearchForward => searchForward
  | OpSearchBackward => searchBackward
  | OpSearchAllStations mode => searchAllStations mode
  | OpCancelSearch => cancelSearch
  | OpSeekTimeout => handleSeekTimeout
  | OpRadioEvent event => radioEvent event
  end.

Fixpoint run_ops (ops : list Operation) (s : State) : State :=
  match ops with
  | [] => s
  | op :: rest => run_ops rest (exec (run_op op) s)
  end.

(** The object as the constructor leaves it (lines 85-107) when the
    metadata library was loaded and [openRadio] has found the device and
    chosen the band [lower .. upper]. *)
Definition constructed (lower upper : Z) (rds : radio_rds_t) : State :=
  {| hal_radiohw := true; hal_tuner := false;
     config_lower_limit := lower; config_upper_limit := upper;
     config_fm_rds := rds;
     m_error := NoError; m_rdsError := RdsNoError;
     m_tunerReady := false; m_antennaConnected := true;
     m_stereoEnabled := true; m_currentFreq := 0;
     m_searchMode := SearchFast; m_seekTimer := false;
     m_searching := false; m_searchAll := false;
     m_searchAllLast := false; m_searchWaitForRDS := false;
     m_firstFoundFrequency := 0; m_searchRange := 0; m_lastFrequency := 0;
     m_stationId := []; m_stationName := []; m_programType := 0;
     m_radioText := [];
     emitted := []; hal_calls := []; hal_returns := [] |}.

(** The band of [setRadioConfigFallback] (line 245). *)
Definition fallback : State := constructed 87500 108000 RADIO_RDS_WORLD.

(** Frequencies of the [stationFound] signals of a log, in order. *)
Fixpoint found_frequencies (l : list Signal) : list Z :=
  match l with
  | [] => []
  | stationFound f _ :: l' => f :: found_frequencies l'
  | _ :: l' => found_frequencies l'
  end.

Definition is_searchingChanged (sig : Signal) : bool :=
  match sig with searchingChanged _ => true | _ => false end.

(** The current frequency lies in the configured band. *)
Definition in_band (s : State) : Prop :=
  config_lower_limit s <= m_currentFreq s <= config_upper_limit s.

(** The tuned events of an operation deliver channels of the band. *)
Definition tuned_in_band (lower upper : Z) (op : Operation) : Prop :=
  match op with
  | OpRadioEvent (RADIO_EVENT_TUNED channel _) => lower <= channel <= upper
  | _ => True
  end.

(** ** The characters of the sanitizer *)

(** What [str.remove(regExp)] leaves in place: the characters the
    pattern does not match. *)
Definition accepted (c : QChar) : bool := negb (QRegExp_matches regExp c).

Definition is_letter (c : QChar) : bool :=
  ((97 <=? c) && (c <=? 122)) || ((65 <=? c) && (c <=? 90)).

Definition is_digit (c : QChar) : bool := (48 <=? c) && (c <=? 57).

(** The punctuation the pattern of line 685 writes out after the
    letters, the digits and the space, each character for itself:
    - _ , ; . : ! # % & / ( ) = ? @ £ $ + *)
Definition listed_punctuation : list QChar :=
  [45; 95; 44; 59; 46; 58; 33; 35; 37; 38; 47; 40; 41; 61; 63; 64; 163;
   36; 43].

(** The allow-list in the words of the specification: a letter, a
    digit, a space or a member of the fixed punctuation set. *)
Definition on_allow_list (c : QChar) : bool :=
  is_letter c || is_digit c || (c =? 32) ||
  existsb (Z.eqb c) listed_punctuation.

(** Double quote, apostrophe, asterisk, the angle brackets, the square
    brackets, backslash and circumflex: characters of U+0020 .. U+005F
    that are neither letters nor digits nor listed. *)
Definition slipped_through : list QChar := [34; 39; 42; 60; 62; 91; 92; 93; 94].

(** A radio text with a quoted title and a bracketed artist, and what
    is left of it when only the allow-list is kept. *)
Definition quoted_title : QString :=
  [78; 111; 119; 58; 32; 34; 72; 101; 121; 32; 74; 117; 100; 101; 34; 32;
   91; 66; 101; 97; 116; 108; 101; 115; 93].

Definition quoted_title_listed : QString :=
  [78; 111; 119; 58; 32; 72; 101; 121; 32; 74; 117; 100; 101; 32;
   66; 101; 97; 116; 108; 101; 115].

(** ** Outcomes of the watchdog *)

(** [s'] is [s] after [cancelSearch]; a search that was running on an
    enabled tuner got the HAL command [cancel] and is over. *)
Definition search_cancelled (s s' : State) : Prop :=
  s' = exec cancelSearch s /\
  (m_searching s = true -> eval tunerEnabled s = true ->
   hal_calls s' = hal_calls s ++ [cancel] /\
   emitted s' = emitted s ++ [searchingChanged false] /\
   m_searching s' = false /\ m_searchAll s' = false /\
   m_searchAllLast s' = false /\ m_searchWaitForRDS s' = false /\
   m_seekTimer s' = false).

(** [s'] is [s] after the current channel was reported with the station
    identifier held and [searchForward] ran; on an enabled tuner the HAL
    got a forward [scan] and the timer runs. *)
Definition reported_and_advanced (s s' : State) : Prop :=
  let found := stationFound (FREQ_HAL_TO_QT (m_currentFreq s)) (m_stationId s) in
  s' = exec searchForward (exec (emit found) s) /\
  (eval tunerEnabled s = true ->
   emitted s' = emitted s ++ [found] /\
   hal_calls s' = hal_calls s ++ [scan RADIO_DIRECTION_UP] /\
   m_seekTimer s' = true /\ m_searching s' = m_searching s /\
   m_searchAll s' = true).

(** ** A sweep that stays on one channel *)

(** A fast sweep is under way, [channel] is its first-found frequency
    and the last position, and some range remains. *)
Definition stuck_on (channel : Z) (s : State) : Prop :=
  m_searchAll s = true /\ m_searchAllLast s = false /\
  m_searchMode s = SearchFast /\
  m_firstFoundFrequency s = channel /\ 0 < channel /\
  m_lastFrequency s = usub channel (config_lower_limit s) /\
  0 < m_searchRange s <= INT_MAX.

(** ** Frame conditions *)

(** The computation [m] leaves the observation [f] of the state as it
    was. *)
Definition preserves {A X : Type} (f : State -> X) (m : M A) : Prop :=
  forall s, f (exec m s) = f s.

(** The band limits and the current frequency. *)
Definition band_view (s : State) : Z * Z * Z :=
  (config_lower_limit s, config_upper_limit s, m_currentFreq s).

(** The band limits alone. *)
Definition limits (s : State) : Z * Z :=
  (config_lower_limit s, config_upper_limit s).

(** The bookkeeping of a sweep: remaining range and last position. *)
Definition accounting (s : State) : Z * Z :=
  (m_searchRange s, m_lastFrequency s).

Create HintDb radio discriminated.
#[local] Hint Unfold tunerEnabled resetRDS setSearching setStereoEnabled
  setError setRdsError seek searchForward searchBackward cancelSearch
  handleSeekTimeout searchAllStations setTuning start stop handleHwFailure
  handleConfig handleAntenna tunedSearchAll handleTuned_done
  handleMetadataItem handleMetadata handleTA handleAFSwitch handleEA
  : radio.

Ltac unfold_monad :=
  unfold exec, eval, when, emit, hal_call, modify, gets, bind, ret in *.

(** Evaluation that leaves the arithmetic of the source folded. *)
Ltac run :=
  cbn -[isub usub uadd to_int reduce_distance FREQ_HAL_TO_QT FREQ_QT_TO_HAL
        Z.ltb Z.eqb Z.leb] in *.

Ltac run_ifs :=
  repeat match goal with
         | |- context [if ?b then _ else _] => destruct b eqn:?; run
         end.

Ltac split_ifs :=
  repeat match goal with
         | |- context [if ?b then _ else _] => destruct b eqn:?; cbn in *
         end.

(** * Further code of the class *)

(** ** Band configuration (lines 187-260) *)

Inductive radio_deemphasis_t : Type :=
  RADIO_DEEMPHASIS_50 | RADIO_DEEMPHASIS_75.

Inductive radio_region_t : Type := RADIO_REGION_ITU_1 | RADIO_REGION_ITU_2.

Definition radio_deemphasis_eqb (a b : radio_deemphasis_t) : bool :=
  match a, b with
  | RADIO_DEEMPHASIS_50, RADIO_DEEMPHASIS_50
  | RADIO_DEEMPHASIS_75, RADIO_DEEMPHASIS_75 => true
  | _, _ => false
  end.

(** [radio_hal_band_config_t], for an FM band. *)
Record radio_hal_band_config_t := mkBandConfig {
  band_type : Z;
  band_antenna_connected : bool;
  band_lower_limit : Z;
  band_upper_limit : Z;
  band_num_spacings : Z;
  band_spacings : list Z;
  band_fm_deemphasis : radio_deemphasis_t;
  band_fm_stereo : bool;
  band_fm_rds : radio_rds_t;
  band_fm_ta : bool;
  band_fm_af : bool;
  band_fm_ea : bool
}.

(** The assignments of lines 225-236: the band is copied, and [fm.ea]
    is cleared. *)
Definition copy_band (b : radio_hal_band_config_t) : radio_hal_band_config_t :=
  mkBandConfig (band_type b) (band_antenna_connected b) (band_lower_limit b)
    (band_upper_limit b) (band_num_spacings b) (band_spacings b)
    (band_fm_deemphasis b) (band_fm_stereo b) (band_fm_rds b)
    (band_fm_ta b) (band_fm_af b) false.

(** [setRadioConfig] (line 219) over [properties.bands]; the result is
    the return value and [m_hal->config] after the call. *)
Fixpoint setRadioConfig (bands : list radio_hal_band_config_t)
    (band : Z) (deemphasis : radio_deemphasis_t)
    (config : radio_hal_band_config_t) : bool * radio_hal_band_config_t :=
  match bands with
  | [] => (false, config)
  | b :: rest =>
      if (band_type b =? band) &&
         radio_deemphasis_eqb (band_fm_deemphasis b) deemphasis
      then (true, copy_band b)
      else setRadioConfig rest band deemphasis config
  end.

Section Regions.

(** [radio_demephasis_for_region] and [radio_rds_for_region] of
    system/radio.h. *)
Variable radio_demephasis_for_region : radio_region_t -> radio_deemphasis_t.
Variable radio_rds_for_region : bool -> radio_region_t -> radio_rds_t.



End Regions.

(** A band matches the request of [setRadioConfig]. *)
Definition band_matches (band : Z) (deemphasis : radio_deemphasis_t)
    (b : radio_hal_band_config_t) : bool :=
  (band_type b =? band) &&
  radio_deemphasis_eqb (band_fm_deemphasis b) deemphasis.

(** ** Accessors *)

(** [frequency] (line 306) and [tunerState] (line 279). *)
Definition frequency (s : State) : Z := FREQ_HAL_TO_QT (m_currentFreq s).
Definition tunerState (s : State) : TunerState :=
  if eval tunerEnabled s then ActiveState else StoppedState.

(** ** Kinds of signals *)

(** The signals of the RDS side: changes of the four values, a found
    station and the request for the next channel. *)
Definition is_rds_signal (sig : Signal) : bool :=
  match sig with
  | radioTextChanged _ | stationNameChanged _ | stationIdChanged _
  | programTypeChanged _ | programTypeNameChanged _
  | stationFound _ _ | seekNextChannel => true
  | _ => false
  end.

(** ** Properties of computations *)

(** All that [m] adds to the log of signals satisfies [p]. *)
Definition emits_only {A : Type} (p : Signal -> bool) (m : M A) : Prop :=
  forall s, exists new,
    emitted (exec m s) = emitted s ++ new /\ forallb p new = true.

(** [m] keeps the property [I] of the state. *)
Definition maintains {A : Type} (I : State -> Prop) (m : M A) : Prop :=
  forall s, I s -> I (exec m s).

(** While the tuner handle is null, [m] leaves it null and calls no
    HAL function. *)
Definition silent_when_closed {A : Type} (m : M A) : Prop :=
  forall s, hal_tuner s = false ->
            hal_tuner (exec m s) = false /\ hal_calls (exec m s) = hal_calls s.

(** The flags of a search imply one another: the last step belongs to a
    sweep, and a sweep is a search. *)
Definition flags_consistent (s : State) : Prop :=
  (m_searchAllLast s = true -> m_searchAll s = true) /\
  (m_searchAll s = true -> m_searching s = true).

(** The three RDS texts hold only characters the pattern accepts. *)
Definition rds_clean (s : State) : Prop :=
  forallb accepted (m_stationId s) = true /\
  forallb accepted (m_stationName s) = true /\
  forallb accepted (m_radioText s) = true.

(** The value of the last signal of one kind in a log. *)
Definition last_of {V : Type} (sel : Signal -> option V) (log : list Signal)
    : option V :=
  fold_left (fun acc sig => match sel sig with Some v => Some v | None => acc end)
            log None.

(** The last signal of the kind [sel], if there is one, carries the
    value of the field [field]. *)
Definition notified {V : Type} (sel : Signal -> option V) (field : State -> V)
    (s : State) : Prop :=
  match last_of sel (emitted s) with
  | Some v => v = field s
  | None => True
  end.

Definition sel_antenna (sig : Signal) : option bool :=
  match sig with antennaConnectedChanged b => Some b | _ => None end.
Definition sel_stereo (sig : Signal) : option bool :=
  match sig with stereoStatusChanged b => Some b | _ => None end.
Definition sel_error (sig : Signal) : option TunerError :=
  match sig with error e => Some e | _ => None end.
Definition sel_stationName (sig : Signal) : option QString :=
  match sig with stationNameChanged n => Some n | _ => None end.
Definition sel_radioText (sig : Signal) : option QString :=
  match sig with radioTextChanged t => Some t | _ => None end.

(** The framework has been told the latest antenna state, stereo
    state, tuner error, station name and radio text. *)
Definition in_sync (s : State) : Prop :=
  notified sel_antenna m_antennaConnected s /\
  notified sel_stereo m_stereoEnabled s /\
  notified sel_error m_error s /\
  notified sel_stationName m_stationName s /\
  notified sel_radioText m_radioText s.


(** ** Views of the state *)

(** All of the state but the four RDS values and the log of signals. *)
Definition tuner_view (s : State) :=
  (hal_radiohw s, hal_tuner s, band_view s, config_fm_rds s,
   m_error s, m_rdsError s, m_tunerReady s, m_antennaConnected s,
   m_stereoEnabled s, m_searchMode s, m_seekTimer s,
   (m_searching s, m_searchAll s, m_searchAllLast s, m_searchWaitForRDS s),
   m_firstFoundFrequency s, accounting s, hal_calls s, hal_returns s).

(** The value a metadata record carries is the one held for its key. *)
Definition item_current (key : radio_metadata_key_t) (value : metadata_value)
    (s : State) : bool :=
  match value, key with
  | TYPE_TEXT text, RADIO_METADATA_KEY_RDS_PI =>
      QString_eqb (m_stationId s) (sanitize text)
  | TYPE_TEXT text, RADIO_METADATA_KEY_RDS_PS =>
      QString_eqb (m_stationName s) (sanitize text)
  | TYPE_TEXT text, RADIO_METADATA_KEY_TITLE =>
      QString_eqb (m_radioText s) (sanitize text)
  | TYPE_INT integer, RADIO_METADATA_KEY_RDS_PTY
  | TYPE_INT integer, RADIO_METADATA_KEY_RBDS_PTY =>
      m_programType s =? integer
  | _, _ => true
  end.

(** The signals [resetRDS] emits in a state: one for each value that is
    set, two for the program type. *)
Definition resetRDS_signals (s : State) : list Signal :=
  (if QString_isEmpty (m_radioText s) then [] else [radioTextChanged []]) ++
  (if QString_isEmpty (m_stationName s) then []
   else [stationNameChanged []]) ++
  (if m_programType s =? 0 then []
   else [programTypeChanged (programTypeValue 0 0);
         programTypeNameChanged (programTypeNameString 0 0)]) ++
  (if QString_isEmpty (m_stationId s) then [] else [stationIdChanged []]).

(** The three flags of a search. *)
Definition search_flags (s : State) : bool * bool * bool :=
  (m_searching s, m_searchAll s, m_searchAllLast s).

(** The text a signal carries, if any, holds only characters the
    pattern accepts. *)
Definition clean_signal (sig : Signal) : bool :=
  match sig with
  | radioTextChanged text | stationNameChanged text | stationIdChanged text
  | stationFound _ text => forallb accepted text
  | _ => true
  end.

(** The RDS texts held and all texts signalled so far are clean. *)
Definition all_clean (s : State) : Prop :=
  rds_clean s /\ forallb clean_signal (emitted s) = true.

(** The frequency [setFrequency] stores for a request (lines 318-322):
    the request moved into the band. *)
Definition clamp_frequency (lower upper frequency : Z) : Z :=
  let frequency := if frequency <? lower then lower else frequency in
  if upper <? frequency then upper else frequency.

(** * Properties *)

(** ** Machine arithmetic *)

Lemma to_unsigned_small (x : Z) : is_unsigned x -> to_unsigned x = x.
Proof. unfold is_unsigned, to_unsigned. intros H. now apply Z.mod_small. Qed.

Lemma to_int_small (x : Z) : is_int x -> to_int x = x.
Proof.
  unfold is_int, to_int, INT_MIN, INT_MAX, half_modulus, modulus.
  intros H. rewrite Z.mod_small; lia.
Qed.

Lemma to_unsigned_range (x : Z) : is_unsigned (to_unsigned x).
Proof. unfold is_unsigned, to_unsigned, modulus. apply Z.mod_pos_bound. lia. Qed.

Lemma to_int_range (x : Z) : is_int (to_int x).
Proof.
  unfold is_int, to_int, INT_MIN, INT_MAX, half_modulus, modulus.
  pose proof (Z.mod_pos_bound (x + 2 ^ 31) (2 ^ 32)). lia.
Qed.

Lemma to_unsigned_negative (x : Z) :
  INT_MIN <= x < 0 -> to_unsigned x = x + modulus.
Proof.
  unfold INT_MIN, half_modulus, to_unsigned, modulus. intros H.
  rewrite <- (Z.mod_add x 1 (2 ^ 32)) by lia.
  rewrite Z.mod_small; lia.
Qed.

(** ** Unit conversion *)

(** C7.  For every external frequency [f] with [0 <= f <= INT_MAX], the
    conversion to the native unit and back gives [f] rounded down to a
    multiple of 1000: the result is [f - f mod 1000], it is a multiple of
    1000, and [f] lies less than 1000 above it. *)
Theorem FREQ_roundtrip (f : Z) (Hf : 0 <= f <= INT_MAX) :
  let r := FREQ_HAL_TO_QT (FREQ_QT_TO_HAL f) in
  r = f - f mod 1000 /\ r = 1000 * (f / 1000) /\
  r mod 1000 = 0 /\ r <= f < r + 1000.
Proof.
  unfold INT_MAX, half_modulus in Hf.
  assert (Hr : FREQ_HAL_TO_QT (FREQ_QT_TO_HAL f) = 1000 * (f / 1000)).
  { unfold FREQ_HAL_TO_QT, FREQ_QT_TO_HAL, imul, udiv.
    rewrite to_unsigned_small by (unfold is_unsigned, modulus; lia).
    assert (Hq : 0 <= f / 1000 <= f).
    { split; [apply Z.div_pos; lia | apply Z.div_le_upper_bound; lia]. }
    assert (Hm : 1000 * (f / 1000) <= f) by (apply Z.mul_div_le; lia).
    rewrite (to_int_small (f / 1000))
      by (unfold is_int, INT_MIN, INT_MAX, half_modulus; lia).
    rewrite to_int_small
      by (unfold is_int, INT_MIN, INT_MAX, half_modulus; lia).
    lia. }
  cbv zeta. rewrite Hr.
  pose proof (Z.div_mod f 1000 ltac:(lia)) as Hdm.
  pose proof (Z.mod_pos_bound f 1000 ltac:(lia)) as Hb.
  repeat split; try lia.
  rewrite Z.mul_comm. apply Z.mod_mul. lia.
Qed.

Lemma FREQ_roundtrip_witness :
  0 <= 90000999 <= INT_MAX /\
  FREQ_HAL_TO_QT (FREQ_QT_TO_HAL 90000999) = 90000999 - 90000999 mod 1000.
Proof.
  assert (H : 0 <= 90000999 <= INT_MAX) by (vm_compute; split; discriminate).
  split; [exact H | exact (proj1 (FREQ_roundtrip 90000999 H))].
Defined.

(** A negative [int] converts to a native frequency of at least
    2147483 kHz. *)
Lemma FREQ_QT_TO_HAL_negative (f : Z) :
  INT_MIN <= f < 0 -> 2147483 <= FREQ_QT_TO_HAL f.
Proof.
  intros H. unfold FREQ_QT_TO_HAL, udiv.
  rewrite to_unsigned_negative by exact H.
  unfold INT_MIN, half_modulus, modulus in *.
  apply Z.div_le_lower_bound; lia.
Qed.

(** C10.  A negative external frequency converts to a native value above
    every band limit below 2147483 kHz, so [setFrequency] leaves the
    current frequency at the upper band limit. *)
Theorem setFrequency_negative (s : State) (newFrequency : Z)
    (Hneg : INT_MIN <= newFrequency < 0)
    (Hupper : config_upper_limit s < 2147483)
    (Hcur : m_currentFreq s < 2147483) :
  FREQ_QT_TO_HAL newFrequency = (newFrequency + modulus) / 1000 /\
  config_upper_limit s < FREQ_QT_TO_HAL newFrequency /\
  m_currentFreq (exec (setFrequency newFrequency) s) = config_upper_limit s.
Proof.
  pose proof (FREQ_QT_TO_HAL_negative newFrequency Hneg) as Hbig.
  split; [| split; [lia |]].
  { unfold FREQ_QT_TO_HAL, udiv. now rewrite to_unsigned_negative. }
  unfold setFrequency, setTuning, resetRDS, tunerEnabled. unfold_monad.
  destruct s; cbn in *.
  destruct (FREQ_QT_TO_HAL newFrequency =? m_currentFreq0) eqn:E1; [lia|].
  split_ifs; try reflexivity; lia.
Qed.

Lemma setFrequency_negative_witness :
  m_currentFreq (exec (setFrequency (-1)) fallback) = 108000.
Proof.
  refine (proj2 (proj2 (setFrequency_negative fallback (-1) _ _ _)));
    vm_compute; try split; congruence.
Defined.

(** ** Cancellation *)

(** C8.  When [m_searching] is false, or the tuner is not open and
    ready, [cancelSearch] returns the state it was given: no field
    changes, no HAL command is logged and no signal is emitted. *)
Theorem cancelSearch_noop (s : State)
    (H : m_searching s = false \/ eval tunerEnabled s = false) :
  cancelSearch s = (tt, s) /\
  hal_calls (exec cancelSearch s) = hal_calls s /\
  emitted (exec cancelSearch s) = emitted s.
Proof.
  assert (E : cancelSearch s = (tt, s)).
  { unfold cancelSearch, tunerEnabled in *. unfold_monad. cbn in *.
    destruct H as [H | H]; rewrite H; cbn;
      rewrite ?orb_true_r; reflexivity. }
  unfold exec. rewrite E. auto.
Qed.

Lemma cancelSearch_noop_witness :
  cancelSearch fallback = (tt, fallback).
Proof.
  refine (proj1 (cancelSearch_noop fallback _)). left. reflexivity.
Defined.

(** What [cancelSearch] does to a running search on an enabled tuner. *)
Lemma cancelSearch_running (s : State) :
  m_searching s = true -> eval tunerEnabled s = true ->
  let s' := exec cancelSearch s in
  hal_calls s' = hal_calls s ++ [cancel] /\
  emitted s' = emitted s ++ [searchingChanged false] /\
  m_searching s' = false /\ m_searchAll s' = false /\
  m_searchAllLast s' = false /\ m_searchWaitForRDS s' = false /\
  m_seekTimer s' = false.
Proof.
  unfold cancelSearch, setSearching, tunerEnabled. unfold_monad.
  destruct s; cbn. intros -> ->. cbn.
  destruct m_seekTimer0; cbn; repeat split; reflexivity.
Qed.

(** ** Single seek *)

(** C9.  When the code the HAL returns for the scan is not 0, [seek]
    leaves [m_searching] as it was, and none of the signals it emits is
    [searchingChanged]. *)
Theorem seek_failure_keeps_searching (s : State)
    (direction : radio_direction_t)
    (Hret : hd 0 (hal_returns s) <> 0) :
  let s' := exec (seek direction) s in
  m_searching s' = m_searching s /\
  (exists new, emitted s' = emitted s ++ new /\
               forallb (fun sig => negb (is_searchingChanged sig)) new = true) /\
  (eval tunerEnabled s = true -> hal_calls s' = hal_calls s ++ [scan direction]).
Proof.
  apply Z.eqb_neq in Hret.
  unfold seek, resetRDS, setSearching, tunerEnabled. unfold_monad.
  destruct s; cbn in *.
  split_ifs; try discriminate Hret; try congruence;
    (split; [reflexivity | split; [| try reflexivity; try discriminate]]);
    rewrite <- ?app_assoc; cbn;
    try (eexists; split; [reflexivity | reflexivity]);
    try (exists []; split; [now rewrite app_nil_r | reflexivity]).
  intros He. rewrite He in *. discriminate.
Qed.

Lemma seek_failure_keeps_searching_witness :
  let s := set_hal_returns [5]
             (run_ops [OpStart; OpRadioEvent (RADIO_EVENT_CONFIG 1 true)]
                      fallback) in
  m_searching (exec (seek RADIO_DIRECTION_UP) s) = false /\
  hal_calls (exec (seek RADIO_DIRECTION_UP) s) =
    [open_tuner; scan RADIO_DIRECTION_UP].
Proof.
  cbv zeta.
  pose proof (seek_failure_keeps_searching
                (set_hal_returns [5]
                   (run_ops [OpStart; OpRadioEvent (RADIO_EVENT_CONFIG 1 true)]
                      fallback))
                RADIO_DIRECTION_UP
                ltac:(vm_compute; discriminate)) as [H1 [_ H3]].
  split; [exact H1 | exact (H3 eq_refl)].
Defined.

(** ** The watchdog *)

(** C4.  On a timeout of the seek timer: with no sweep active, in a fast
    sweep, and in a station-id sweep whose first-found frequency is still
    0, the handler is [cancelSearch]; in a station-id sweep that has found
    something it emits [stationFound] for the current channel with the
    station identifier held (empty or not) and runs [searchForward]. *)
Theorem watchdog_timeout (s : State) :
  let s' := exec handleSeekTimeout s in
  (m_searchAll s = false -> search_cancelled s s') /\
  (m_searchAll s = true -> m_searchMode s = SearchFast ->
   search_cancelled s s') /\
  (m_searchAll s = true -> m_searchMode s = SearchGetStationId ->
   m_firstFoundFrequency s = 0 -> search_cancelled s s') /\
  (m_searchAll s = true -> m_searchMode s = SearchGetStationId ->
   m_firstFoundFrequency s <> 0 -> reported_and_advanced s s').
Proof.
  assert (Hc : forall s, search_cancelled s (exec cancelSearch s)).
  { intros s0. split; [reflexivity |]. intros H1 H2.
    pose proof (cancelSearch_running s0 H1 H2) as H. cbv zeta in H.
    tauto. }
  assert (He : forall s0, m_searchAll s0 = false \/
                 (m_searchAll s0 = true /\
                  (m_searchMode s0 = SearchFast \/
                   m_firstFoundFrequency s0 = 0)) ->
               exec handleSeekTimeout s0 = exec cancelSearch s0).
  { intros s0 H. unfold handleSeekTimeout at 1. unfold exec, bind, gets.
    cbv beta iota.
    destruct H as [H | [H [H' | H']]]; rewrite H; try reflexivity.
    - now rewrite H'.
    - destruct (SearchMode_eqb _ _); [reflexivity |].
      cbv beta iota. rewrite H', Z.eqb_refl. reflexivity. }
  cbv zeta. split; [| split; [| split]].
  - intros H. rewrite He by tauto. apply Hc.
  - intros H1 H2. rewrite He by tauto. apply Hc.
  - intros H1 H2 H3. rewrite He by tauto. apply Hc.
  - intros H1 H2 H3. apply Z.eqb_neq in H3. split.
    + revert H1 H2 H3. unfold handleSeekTimeout. unfold_monad.
      destruct s; cbn. intros -> -> Hf.
      destruct m_firstFoundFrequency0; [discriminate Hf | reflexivity ..].
    + revert H1 H2 H3.
      unfold handleSeekTimeout, searchForward, seek, tunerEnabled.
      unfold_monad. destruct s; cbn. intros -> -> Hf Hen.
      destruct hal_tuner0, m_tunerReady0; try discriminate Hen.
      destruct m_firstFoundFrequency0; [discriminate Hf | ..]; cbn;
        destruct (hd 0 hal_returns0); cbn; repeat split; reflexivity.
Qed.


(** ** The monad and frame conditions *)

Lemma exec_bind {A B} (m : M A) (k : A -> M B) (s : State) :
  exec (bind m k) s = exec (k (eval m s)) (exec m s).
Proof. unfold exec, eval, bind. now destruct (m s). Qed.

Section Frame.

Context {X : Type} (f : State -> X).

Lemma preserves_ret {A} (a : A) : preserves f (ret a).
Proof. intros s. reflexivity. Qed.

Lemma preserves_gets {A} (g : State -> A) : preserves f (gets g).
Proof. intros s. reflexivity. Qed.

Lemma preserves_bind {A B} (m : M A) (k : A -> M B) :
  preserves f m -> (forall a, preserves f (k a)) -> preserves f (bind m k).
Proof.
  intros Hm Hk s. rewrite exec_bind. now rewrite Hk, Hm.
Qed.

Lemma preserves_when (b : bool) (m : M unit) :
  preserves f m -> preserves f (when b m).
Proof. intros Hm. destruct b; [exact Hm | apply preserves_ret]. Qed.

Lemma preserves_modify (g : State -> State) :
  (forall s, f (g s) = f s) -> preserves f (modify g).
Proof. intros Hg s. apply Hg. Qed.

Lemma preserves_hal_call (cmd : HalCommand) :
  (forall s l, f (set_hal_calls l s) = f s) ->
  (forall s l, f (set_hal_returns l s) = f s) ->
  preserves f (hal_call cmd).
Proof. intros H1 H2 s. unfold exec, hal_call. cbn. now rewrite H2, H1. Qed.

End Frame.

(** Breaks a frame goal down along the structure of the program. *)
Ltac frame_step :=
  lazymatch goal with
  | |- preserves _ (bind _ _) => apply preserves_bind; [| intro]
  | |- preserves _ (ret _) => apply preserves_ret
  | |- preserves _ (gets _) => apply preserves_gets
  | |- preserves _ (when _ _) => apply preserves_when
  | |- preserves _ (modify _) => apply preserves_modify; intro; reflexivity
  | |- preserves _ (hal_call _) =>
      apply preserves_hal_call; intros; reflexivity
  | |- preserves _ (emit _) => apply preserves_modify; intro; reflexivity
  | |- preserves _ (if ?b then _ else _) => destruct b
  | |- preserves _ (match ?x with _ => _ end) => destruct x
  | |- preserves _ (let _ := _ in _) => cbv zeta
  | |- preserves _ _ => first [ solve [auto with frame] |
                                progress autounfold with radio ]
  end.

Ltac frame := repeat frame_step.

Lemma preserves_handleMetadataItems {X} (f : State -> X)
    (l : list metadata_item) :
  (forall key value, preserves f (handleMetadataItem key value)) ->
  preserves f (handleMetadataItems l).
Proof.
  intros H. induction l as [| it rest IH]; cbn [handleMetadataItems].
  - apply preserves_ret.
  - destruct (item_ret it =? 0); [| apply preserves_ret].
    apply preserves_bind; [apply H | intros _; exact IH].
Qed.

(** Only [setFrequency] and [handleTuned] write the current frequency,
    and nothing writes the band limits. *)
Lemma band_view_handleMetadata metadata :
  preserves band_view (handleMetadata metadata).
Proof.
  unfold handleMetadata. frame.
  all: apply preserves_handleMetadataItems; intros; frame.
Qed.

Lemma limits_setFrequency newFrequency :
  preserves limits (setFrequency newFrequency).
Proof. unfold setFrequency. frame. Qed.

Lemma limits_handleTuned channel stereo :
  preserves limits (handleTuned channel stereo).
Proof. unfold handleTuned. frame. Qed.

Lemma accounting_handleTuned_done stereo :
  preserves accounting (handleTuned_done stereo).
Proof. frame. Qed.

(** ** Step accounting of a sweep *)

(** During a sweep a tuned event runs [tunedSearchAll], and the end of
    [handleTuned] only when that returns [false]. *)
Lemma handleTuned_sweep (s : State) (channel : Z) (stereo : bool) :
  m_searchAll s = true -> m_searchAllLast s = false ->
  exec (handleTuned channel stereo) s =
    let s1 := set_m_currentFreq channel s in
    if eval (tunedSearchAll channel) s1
    then exec (tunedSearchAll channel) s1
    else exec (handleTuned_done stereo) (exec (tunedSearchAll channel) s1).
Proof.
  intros Hall Hlast.
  unfold handleTuned, exec, eval, bind, modify, gets. cbv beta iota zeta.
  change (m_searchAll (set_m_currentFreq channel s)) with (m_searchAll s).
  change (m_searchAllLast (set_m_currentFreq channel s))
    with (m_searchAllLast s).
  rewrite Hall, Hlast. cbn [negb andb].
  destruct (tunedSearchAll channel (set_m_currentFreq channel s))
    as [[|] s2]; reflexivity.
Qed.

Lemma tunedSearchAll_accounting (s : State) (channel : Z) :
  accounting (exec (tunedSearchAll channel) s) =
    (isub (m_searchRange s)
          (reduce_distance (config_lower_limit s) (config_upper_limit s)
                           (m_lastFrequency s) channel),
     usub channel (config_lower_limit s)).
Proof.
  unfold tunedSearchAll, searchForward, seek, resetRDS, setSearching,
    tunerEnabled.
  unfold_monad. destruct s. run. run_ifs; reflexivity.
Qed.

Lemma handleTuned_accounting (s : State) (channel : Z) (stereo : bool) :
  m_searchAll s = true -> m_searchAllLast s = false ->
  accounting (exec (handleTuned channel stereo) s) =
    (isub (m_searchRange s)
          (reduce_distance (config_lower_limit s) (config_upper_limit s)
                           (m_lastFrequency s) channel),
     usub channel (config_lower_limit s)).
Proof.
  intros Hall Hlast. rewrite handleTuned_sweep by assumption. cbv zeta.
  destruct (eval (tunedSearchAll channel) (set_m_currentFreq channel s)).
  - now rewrite tunedSearchAll_accounting.
  - rewrite accounting_handleTuned_done. now rewrite tunedSearchAll_accounting.
Qed.

(** For a channel of the band the machine arithmetic is exact. *)
Lemma reduce_distance_exact (lower upper last channel : Z) :
  0 <= lower -> lower <= channel <= upper -> upper <= INT_MAX ->
  0 <= last <= upper - lower ->
  usub channel lower = channel - lower /\
  reduce_distance lower upper last channel =
    (if last <=? channel - lower then channel - lower - last
     else (upper - lower) - last + (channel - lower)) /\
  0 <= reduce_distance lower upper last channel <= upper - lower.
Proof.
  unfold INT_MAX, half_modulus. intros Hl Hc Hu Hlast.
  assert (Hrel : usub channel lower = channel - lower).
  { unfold usub. apply to_unsigned_small. unfold is_unsigned, modulus. lia. }
  assert (Hspan : usub upper lower = upper - lower).
  { unfold usub. apply to_unsigned_small. unfold is_unsigned, modulus. lia. }
  unfold reduce_distance. rewrite Hrel.
  destruct (Z.leb_spec last (channel - lower)) as [Hle | Hgt].
  - assert (E : usub (channel - lower) last = channel - lower - last).
    { unfold usub. apply to_unsigned_small. unfold is_unsigned, modulus. lia. }
    rewrite E, to_int_small
      by (unfold is_int, INT_MIN, INT_MAX, half_modulus; lia).
    repeat split; lia.
  - assert (E : uadd (usub (usub upper lower) last) (channel - lower) =
                upper - lower - last + (channel - lower)).
    { rewrite Hspan. unfold uadd, usub.
      rewrite (to_unsigned_small (upper - lower - last))
        by (unfold is_unsigned, modulus; lia).
      apply to_unsigned_small. unfold is_unsigned, modulus. lia. }
    rewrite E, to_int_small
      by (unfold is_int, INT_MIN, INT_MAX, half_modulus; lia).
    repeat split; lia.
Qed.

(** C1.  For a tuned event with channel [channel] during a sweep, the
    handler computes [relative = channel - lower_limit], the distance
    [relative - last] when [relative >= last] and
    [(upper_limit - lower_limit) - last + relative] otherwise, takes that
    distance from the remaining range and stores [relative] as the last
    position.  The equations hold in the arithmetic of the source for every
    channel, and in the integers for a channel of the band. *)
Theorem sweep_step_accounting (s : State) (channel : Z) (stereo : bool)
    (Hall : m_searchAll s = true) (Hlast : m_searchAllLast s = false) :
  let lower := config_lower_limit s in
  let upper := config_upper_limit s in
  let last := m_lastFrequency s in
  let relative := usub channel lower in
  let distance :=
    if last <=? relative then to_int (usub relative last)
    else to_int (uadd (usub (usub upper lower) last) relative) in
  let s' := exec (handleTuned channel stereo) s in
  (m_lastFrequency s' = relative /\
   m_searchRange s' = isub (m_searchRange s) distance) /\
  (0 <= lower -> lower <= channel <= upper -> upper <= INT_MAX ->
   0 <= last <= upper - lower ->
   relative = channel - lower /\
   distance =
     (if last <=? channel - lower then channel - lower - last
      else (upper - lower) - last + (channel - lower)) /\
   (is_int (m_searchRange s - distance) ->
    m_searchRange s' = m_searchRange s - distance)).
Proof.
  cbv zeta.
  pose proof (handleTuned_accounting s channel stereo Hall Hlast) as Hacc.
  unfold accounting, reduce_distance in Hacc.
  injection Hacc as H2 H1.
  split; [split; assumption |].
  intros Hl Hc Hu Hla.
  pose proof (reduce_distance_exact _ _ _ _ Hl Hc Hu Hla) as [E1 [E2 _]].
  unfold reduce_distance in E2.
  split; [exact E1 | split; [exact E2 |]].
  intros Hint. rewrite H2. unfold isub. now apply to_int_small.
Qed.

Lemma sweep_step_accounting_witness :
  let s := run_ops [OpStart; OpRadioEvent (RADIO_EVENT_CONFIG 1 true);
                    OpSetFrequency 107900000;
                    OpSearchAllStations SearchFast] fallback in
  let s' := exec (handleTuned 87600 true) s in
  m_searchRange s = 20500 /\ m_lastFrequency s = 20400 /\
  m_lastFrequency s' = 100 /\ m_searchRange s' = 20500 - 200.
Proof.
  cbv zeta.
  pose proof (sweep_step_accounting
                (run_ops [OpStart; OpRadioEvent (RADIO_EVENT_CONFIG 1 true);
                          OpSetFrequency 107900000;
                          OpSearchAllStations SearchFast] fallback)
                87600 true eq_refl eq_refl) as [[H1 H2] _].
  split; [reflexivity | split; [reflexivity | split]].
  - exact H1.
  - exact H2.
Defined.

(** ** The last step of a fast sweep *)

(** The step of a fast sweep that finds the range used up on a channel
    other than the first-found one. *)
Lemma tunedSearchAll_last_fast (s : State) (channel : Z) :
  m_searchMode s = SearchFast ->
  0 < m_firstFoundFrequency s ->
  m_firstFoundFrequency s <> channel ->
  isub (m_searchRange s)
       (reduce_distance (config_lower_limit s) (config_upper_limit s)
                        (m_lastFrequency s) channel) <= 0 ->
  let s2 := exec (tunedSearchAll channel) s in
  eval (tunedSearchAll channel) s = false /\
  emitted s2 =
    emitted s ++
    [stationFound (FREQ_HAL_TO_QT channel) (m_stationId s);
     stationFound (FREQ_HAL_TO_QT (m_firstFoundFrequency s)) (m_stationId s)] /\
  m_searchAllLast s2 = true /\
  hal_calls s2 = hal_calls s /\ m_currentFreq s2 = m_currentFreq s.
Proof.
  intros Hfast Hrec Hdiff Hex.
  apply Z.ltb_lt in Hrec. apply Z.eqb_neq in Hdiff. apply Z.ltb_ge in Hex.
  revert Hfast Hrec Hdiff Hex.
  unfold tunedSearchAll. unfold_monad. destruct s.
  cbn [m_searchMode m_firstFoundFrequency m_searchRange config_lower_limit
       config_upper_limit m_lastFrequency m_stationId].
  intros -> Hrec Hdiff Hex. run.
  rewrite Hrec. run. rewrite Hex. run. rewrite Hdiff. run.
  rewrite <- app_assoc. repeat split; reflexivity.
Qed.

(** The end of [handleTuned] once [m_searchAllLast] is set. *)
Lemma handleTuned_done_last (s : State) (stereo : bool) :
  m_searchAllLast s = true ->
  let s' := exec (handleTuned_done stereo) s in
  (exists rest, emitted s' = emitted s ++ rest /\ found_frequencies rest = []) /\
  hal_calls s' = hal_calls s /\
  m_searching s' = false /\ m_searchAll s' = false /\
  m_searchAllLast s' = false /\ m_searchWaitForRDS s' = false /\
  m_seekTimer s' = false /\ m_currentFreq s' = m_currentFreq s.
Proof.
  unfold handleTuned_done, setSearching, setStereoEnabled. unfold_monad.
  destruct s. cbn [m_searchAllLast]. intros ->. run.
  destruct m_seekTimer0, m_searching0, stereo, m_stereoEnabled0; run;
    (split; [rewrite <- ?app_assoc; eexists;
             split; [reflexivity | reflexivity]
            | repeat split; reflexivity]).
Qed.

(** C2.  In a fast sweep, when a tuned event brings the remaining range
    to 0 or below and the channel differs from the recorded first-found
    frequency (one is recorded, so it is above 0), the step emits [stationFound] for the channel just tuned,
    then [stationFound] for the first-found frequency, returns [false],
    and [handleTuned] ends the sweep: the flags are cleared, the timer is
    stopped and [m_searching] is false. *)
Theorem fast_sweep_last_step (s : State) (channel : Z) (stereo : bool)
    (Hall : m_searchAll s = true) (Hlast : m_searchAllLast s = false)
    (Hfast : m_searchMode s = SearchFast)
    (Hrec : 0 < m_firstFoundFrequency s)
    (Hdiff : m_firstFoundFrequency s <> channel)
    (Hexhausted :
       isub (m_searchRange s)
            (reduce_distance (config_lower_limit s) (config_upper_limit s)
                             (m_lastFrequency s) channel) <= 0) :
  let s' := exec (handleTuned channel stereo) s in
  eval (tunedSearchAll channel) (set_m_currentFreq channel s) = false /\
  (exists rest,
     emitted s' =
       emitted s ++
       stationFound (FREQ_HAL_TO_QT channel) (m_stationId s) ::
       stationFound (FREQ_HAL_TO_QT (m_firstFoundFrequency s)) (m_stationId s) ::
       rest /\
     found_frequencies rest = []) /\
  hal_calls s' = hal_calls s /\
  m_searching s' = false /\ m_searchAll s' = false /\
  m_searchAllLast s' = false /\ m_searchWaitForRDS s' = false /\
  m_seekTimer s' = false /\ m_currentFreq s' = channel.
Proof.
  cbv zeta. rewrite handleTuned_sweep by assumption. cbv zeta.
  pose proof (tunedSearchAll_last_fast (set_m_currentFreq channel s) channel
                Hfast Hrec Hdiff Hexhausted) as H.
  cbv zeta in H. destruct H as [Hev [Hem [Hl [Hc Hf]]]].
  rewrite Hev. split; [reflexivity |].
  pose proof (handleTuned_done_last _ stereo Hl) as H.
  cbv zeta in H.
  destruct H as [[rest [Hr Hnone]] [Hc' [H1 [H2 [H3 [H4 [H5 H6]]]]]]].
  repeat split; try assumption.
  - exists rest. split; [| exact Hnone].
    rewrite Hr, Hem. rewrite <- app_assoc. reflexivity.
  - now rewrite Hc', Hc.
  - now rewrite H6, Hf.
Qed.

Lemma fast_sweep_last_step_witness :
  let s := run_ops [OpStart; OpRadioEvent (RADIO_EVENT_CONFIG 1 true);
                    OpSetFrequency 90000000;
                    OpSearchAllStations SearchFast;
                    OpRadioEvent (RADIO_EVENT_TUNED 95000 true);
                    OpRadioEvent (RADIO_EVENT_TUNED 107000 true)] fallback in
  let s' := exec (handleTuned 90000 true) s in
  m_searchRange s = 3500 /\
  found_frequencies (emitted s) = [107000000] /\
  found_frequencies (emitted s') = [107000000; 90000000; 95000000] /\
  m_searching s' = false.
Proof.
  cbv zeta.
  pose proof (fast_sweep_last_step
                (run_ops [OpStart; OpRadioEvent (RADIO_EVENT_CONFIG 1 true);
                          OpSetFrequency 90000000;
                          OpSearchAllStations SearchFast;
                          OpRadioEvent (RADIO_EVENT_TUNED 95000 true);
                          OpRadioEvent (RADIO_EVENT_TUNED 107000 true)]
                         fallback)
                90000 true eq_refl eq_refl eq_refl
                ltac:(vm_compute; reflexivity)
                ltac:(vm_compute; discriminate)
                ltac:(vm_compute; discriminate)) as H.
  cbv zeta in H. destruct H as [_ [_ [_ [Hs _]]]].
  split; [vm_compute; reflexivity |].
  split; [vm_compute; reflexivity |].
  split; [vm_compute; reflexivity | exact Hs].
Defined.

(** ** Sanitizing metadata text *)

Lemma QString_eqb_eq (a b : QString) : QString_eqb a b = true <-> a = b.
Proof.
  revert b. induction a as [| x a IH]; destruct b as [| y b]; cbn;
    try (split; congruence).
  rewrite andb_true_iff, Z.eqb_eq, IH. split.
  - intros [-> ->]. reflexivity.
  - intros [= -> ->]. auto.
Qed.

Lemma QString_eqb_refl (a : QString) : QString_eqb a a = true.
Proof. now apply QString_eqb_eq. Qed.

(** What the pattern accepts, as code points: U+0020 to U+005F, the
    small letters, and the pound sign. *)
Lemma accepted_range (c : QChar) :
  accepted c = true <-> 32 <= c <= 95 \/ 97 <= c <= 122 \/ c = 163.
Proof.
  unfold accepted, QRegExp_matches.
  assert (Hx : forall b, negb (xorb true b) = b) by (now intros []).
  cbn [negated class_items regExp]. rewrite Hx.
  cbn [existsb item_matches].
  rewrite !orb_true_iff, !andb_true_iff, !Z.leb_le, !Z.eqb_eq.
  split; intros H; [| lia].
  repeat match goal with
         | H : _ \/ _ |- _ => destruct H
         | H : _ /\ _ |- _ => destruct H
         end; try lia; discriminate.
Qed.

Lemma on_allow_list_bound (c : QChar) :
  on_allow_list c = true -> 32 <= c <= 163.
Proof.
  unfold on_allow_list, is_letter, is_digit, listed_punctuation.
  cbn [existsb].
  rewrite !orb_true_iff, !andb_true_iff, !Z.leb_le, !Z.eqb_eq.
  intros H.
  repeat match goal with
         | H : _ \/ _ |- _ => destruct H
         | H : _ /\ _ |- _ => destruct H
         end; try lia; discriminate.
Qed.

Lemma slipped_through_bound (c : QChar) :
  existsb (Z.eqb c) slipped_through = true -> 32 <= c <= 163.
Proof.
  unfold slipped_through. cbn [existsb].
  rewrite !orb_true_iff, !Z.eqb_eq.
  intros H.
  repeat match goal with
         | H : _ \/ _ |- _ => destruct H
         end; try lia; discriminate.
Qed.

(** The pattern accepts the allow-list and nine characters more. *)
Lemma accepted_listed (c : QChar) :
  accepted c = on_allow_list c || existsb (Z.eqb c) slipped_through.
Proof.
  destruct (Z_le_gt_dec 0 c) as [Hlo |]; [destruct (Z_le_gt_dec c 163) as [Hhi |] |].
  - assert (Htable :
      forallb (fun n => Bool.eqb (accepted (Z.of_nat n))
                          (on_allow_list (Z.of_nat n) ||
                           existsb (Z.eqb (Z.of_nat n)) slipped_through))
              (seq 0 164) = true) by (vm_compute; reflexivity).
    rewrite forallb_forall in Htable.
    specialize (Htable (Z.to_nat c)).
    rewrite Z2Nat.id in Htable by exact Hlo.
    apply Bool.eqb_prop, Htable, in_seq. lia.
  - destruct (accepted c) eqn:E1;
      [apply accepted_range in E1; lia |].
    destruct (on_allow_list c) eqn:E2;
      [apply on_allow_list_bound in E2; lia |].
    destruct (existsb _ _) eqn:E3;
      [apply slipped_through_bound in E3; lia | reflexivity].
  - destruct (accepted c) eqn:E1;
      [apply accepted_range in E1; lia |].
    destruct (on_allow_list c) eqn:E2;
      [apply on_allow_list_bound in E2; lia |].
    destruct (existsb _ _) eqn:E3;
      [apply slipped_through_bound in E3; lia | reflexivity].
Qed.

Lemma QString_remove_accepted (s : QString) :
  QString_remove regExp s = filter accepted s.
Proof. reflexivity. Qed.

Lemma drop_space_suffix (s : QString) :
  exists p, s = p ++ drop_space s /\ forallb QChar_isSpace p = true.
Proof.
  induction s as [| c s (p & IH & Hp)]; cbn [drop_space].
  - now exists [].
  - destruct (QChar_isSpace c) eqn:E.
    + exists (c :: p). cbn [app forallb]. rewrite E, Hp.
      split; [now rewrite <- IH | reflexivity].
    + now exists [].
Qed.

Lemma drop_space_head (s : QString) (c : QChar) :
  hd_error (drop_space s) = Some c -> QChar_isSpace c = false.
Proof.
  induction s as [| d s IH]; cbn [drop_space]; [discriminate |].
  destruct (QChar_isSpace d) eqn:E; [exact IH |].
  cbn. intros [= <-]. exact E.
Qed.

Lemma In_drop_space (s : QString) (c : QChar) :
  In c (drop_space s) -> In c s.
Proof.
  destruct (drop_space_suffix s) as (p & Hp & _). intros H.
  rewrite Hp. apply in_or_app. now right.
Qed.

Lemma In_trimmed (s : QString) (c : QChar) :
  In c (QString_trimmed s) -> In c s.
Proof.
  unfold QString_trimmed. intros H.
  apply In_drop_space. apply in_rev.
  apply In_drop_space. now apply in_rev.
Qed.

(** Trimming takes whitespace, and nothing else, off both ends. *)
Lemma trimmed_split (s : QString) :
  exists pre post,
    s = pre ++ QString_trimmed s ++ post /\
    forallb QChar_isSpace pre = true /\ forallb QChar_isSpace post = true.
Proof.
  unfold QString_trimmed.
  destruct (drop_space_suffix s) as (p & Hp & Sp).
  destruct (drop_space_suffix (rev (drop_space s))) as (q & Hq & Sq).
  exists p, (rev q). split; [| split; [exact Sp |]].
  - rewrite <- rev_app_distr, <- Hq, rev_involutive. exact Hp.
  - apply forallb_forall. intros c Hc. apply in_rev in Hc.
    rewrite forallb_forall in Sq. now apply Sq.
Qed.

Lemma trimmed_last (s : QString) (c : QChar) :
  hd_error (rev (QString_trimmed s)) = Some c -> QChar_isSpace c = false.
Proof.
  unfold QString_trimmed. rewrite rev_involutive. apply drop_space_head.
Qed.

Lemma trimmed_first (s : QString) (c : QChar) :
  hd_error (QString_trimmed s) = Some c -> QChar_isSpace c = false.
Proof.
  unfold QString_trimmed.
  destruct (drop_space_suffix (rev (drop_space s))) as (p & Hp & _).
  set (y := drop_space (rev (drop_space s))) in *.
  assert (Hx : drop_space s = rev y ++ rev p).
  { rewrite <- rev_app_distr, <- Hp. now rewrite rev_involutive. }
  intros H. apply (drop_space_head s). rewrite Hx.
  destruct (rev y); [discriminate | exact H].
Qed.

(** A text without the nine characters is filtered as the allow-list
    filters it. *)
Lemma filter_accepted_listed (str : QString) :
  (forall c, In c str -> ~ In c slipped_through) ->
  filter accepted str = filter on_allow_list str.
Proof.
  intros H. induction str as [| c str IH]; [reflexivity |].
  cbn [filter]. rewrite IH by (intros d Hd; apply H; now right).
  rewrite accepted_listed.
  destruct (existsb (Z.eqb c) slipped_through) eqn:E.
  - exfalso. apply existsb_exists in E. destruct E as (d & Hd & E).
    apply Z.eqb_eq in E. subst d. exact (H c (or_introl eq_refl) Hd).
  - now rewrite orb_false_r.
Qed.

(** The decoder stores a text value sanitized, under each text key. *)
Lemma handleMetadataItem_stores (str : QString) (s : State) :
  m_stationId (exec (handleMetadataItem RADIO_METADATA_KEY_RDS_PI
                                        (TYPE_TEXT str)) s) = sanitize str /\
  m_stationName (exec (handleMetadataItem RADIO_METADATA_KEY_RDS_PS
                                          (TYPE_TEXT str)) s) = sanitize str /\
  m_radioText (exec (handleMetadataItem RADIO_METADATA_KEY_TITLE
                                        (TYPE_TEXT str)) s) = sanitize str.
Proof.
  unfold handleMetadataItem. cbv zeta.
  repeat split; rewrite exec_bind;
    change (eval (gets ?f) s) with (f s);
    change (exec (gets ?f) s) with s.
  - destruct (QString_eqb (m_stationId s) (sanitize str)) eqn:E;
      [now apply QString_eqb_eq in E |].
    cbn [negb when]. rewrite exec_bind.
    change (exec (modify ?g) s) with (g s).
    rewrite exec_bind.
    change (eval (gets ?f) ?t) with (f t);
      change (exec (gets ?f) ?t) with t.
    now destruct (m_searchWaitForRDS _).
  - destruct (QString_eqb (m_stationName s) (sanitize str)) eqn:E;
      [now apply QString_eqb_eq in E | reflexivity].
  - destruct (QString_eqb (m_radioText s) (sanitize str)) eqn:E;
      [now apply QString_eqb_eq in E | reflexivity].
Qed.

(** C6.  The decoder does sanitize every text value and store the
    result, and the sanitizer does trim whitespace, and only whitespace,
    from both ends of what it keeps.  But it keeps more than the
    allow-list: in the pattern the dash between the space and the
    underscore makes a range, so besides letters, digits, the space and
    the listed punctuation nine further characters pass.  The radio text
    [quoted_title], delivered in a metadata event, is stored and signalled
    with its quotes and brackets, where the allow-list leaves
    [quoted_title_listed].  For a text without the nine characters the
    result is the one of the allow-list. *)
Theorem sanitize_keeps_unlisted :
  let event :=
    RADIO_EVENT_METADATA
      (Some (mkMetadata 0 [mkItem 0 RADIO_METADATA_KEY_TITLE
                             (TYPE_TEXT quoted_title)])) in
  let s' := exec (radioEvent event) fallback in
  (m_radioText s' = quoted_title /\
   emitted s' = [radioTextChanged quoted_title] /\
   existsb (fun c => negb (on_allow_list c)) (m_radioText s') = true /\
   QString_trimmed (filter on_allow_list quoted_title) = quoted_title_listed /\
   m_radioText s' <> quoted_title_listed) /\
  (forall str s,
      m_stationId (exec (handleMetadataItem RADIO_METADATA_KEY_RDS_PI
                                            (TYPE_TEXT str)) s) = sanitize str /\
      m_stationName (exec (handleMetadataItem RADIO_METADATA_KEY_RDS_PS
                                              (TYPE_TEXT str)) s) = sanitize str /\
      m_radioText (exec (handleMetadataItem RADIO_METADATA_KEY_TITLE
                                            (TYPE_TEXT str)) s) = sanitize str) /\
  (forall str, exists pre post,
      filter accepted str = pre ++ sanitize str ++ post /\
      forallb QChar_isSpace pre = true /\
      forallb QChar_isSpace post = true) /\
  (forall str c, hd_error (sanitize str) = Some c -> QChar_isSpace c = false) /\
  (forall str c, hd_error (rev (sanitize str)) = Some c ->
                 QChar_isSpace c = false) /\
  (forall c, accepted c =
             on_allow_list c || existsb (Z.eqb c) slipped_through) /\
  (forall c, In c slipped_through -> on_allow_list c = false) /\
  (forall str c, In c (sanitize str) ->
                 on_allow_list c = true \/ In c slipped_through) /\
  (forall str, (forall c, In c str -> ~ In c slipped_through) ->
               sanitize str = QString_trimmed (filter on_allow_list str) /\
               Forall (fun c => on_allow_list c = true) (sanitize str)).
Proof.
  cbv zeta.
  split; [repeat split; try (vm_compute; reflexivity); discriminate |].
  split; [apply handleMetadataItem_stores |].
  split; [intros str; apply trimmed_split |].
  split; [intros str c; apply trimmed_first |].
  split; [intros str c; apply trimmed_last |].
  split; [apply accepted_listed |].
  split.
  { intros c Hc. cbn in Hc.
    repeat destruct Hc as [<- | Hc]; try reflexivity. contradiction. }
  split.
  { intros str c Hc. unfold sanitize in Hc. apply In_trimmed in Hc.
    rewrite QString_remove_accepted in Hc. apply filter_In in Hc.
    destruct Hc as [_ Hc]. rewrite accepted_listed in Hc.
    apply orb_true_iff in Hc. destruct Hc as [Hc | Hc]; [now left | right].
    apply existsb_exists in Hc. destruct Hc as (d & Hd & E).
    apply Z.eqb_eq in E. now subst d. }
  intros str Hstr.
  assert (E : sanitize str = QString_trimmed (filter on_allow_list str)).
  { unfold sanitize. rewrite QString_remove_accepted.
    now rewrite filter_accepted_listed. }
  split; [exact E |].
  rewrite E. apply Forall_forall. intros c Hc.
  apply In_trimmed in Hc. apply filter_In in Hc. tauto.
Qed.

Example sanitize_example :
  sanitize [32; 9; 82; 97; 100; 105; 111; 42; 123; 96; 163; 228; 32; 49; 32]
  = [82; 97; 100; 105; 111; 42; 163; 32; 49].
Proof. reflexivity. Qed.

(** ** The current frequency and the band *)

Lemma band_view_in_band (s s' : State) :
  band_view s' = band_view s -> in_band s -> in_band s' /\ limits s' = limits s.
Proof.
  unfold band_view, in_band, limits. intros [= -> -> ->]. auto.
Qed.

(** The frequency [setFrequency] leaves: the one before when the
    request converts to it, else the request forced into the band. *)
Lemma setFrequency_current (s : State) (newFrequency : Z) :
  m_currentFreq (exec (setFrequency newFrequency) s) =
    let frequency := FREQ_QT_TO_HAL newFrequency in
    if frequency =? m_currentFreq s then m_currentFreq s
    else
      let clamped :=
        if frequency <? config_lower_limit s then config_lower_limit s
        else frequency in
      if config_upper_limit s <? clamped then config_upper_limit s
      else clamped.
Proof.
  unfold setFrequency. cbv zeta. rewrite exec_bind.
  change (eval (gets m_currentFreq) s) with (m_currentFreq s).
  change (exec (gets m_currentFreq) s) with s.
  destruct (FREQ_QT_TO_HAL newFrequency =? m_currentFreq s);
    [reflexivity |].
  rewrite !exec_bind.
  match goal with
  | |- m_currentFreq (exec ?m ?st) = _ =>
      assert (Hp : preserves m_currentFreq m) by frame;
      rewrite (Hp st)
  end.
  reflexivity.
Qed.

(** [handleTuned] stores the channel as it comes. *)
Lemma handleTuned_current (s : State) (channel : Z) (stereo : bool) :
  m_currentFreq (exec (handleTuned channel stereo) s) = channel.
Proof.
  unfold handleTuned. rewrite exec_bind.
  match goal with
  | |- m_currentFreq (exec ?m ?st) = _ =>
      assert (Hp : preserves m_currentFreq m) by frame;
      rewrite (Hp st)
  end.
  reflexivity.
Qed.

(** Every other operation leaves the band limits and the current
    frequency alone. *)
Lemma band_view_run_op (op : Operation) :
  match op with
  | OpSetFrequency _ | OpRadioEvent (RADIO_EVENT_TUNED _ _) => True
  | _ => preserves band_view (run_op op)
  end.
Proof.
  destruct op as [| | f | | | mode | | | event]; cbn [run_op];
    try exact I; try solve [frame].
  destruct event; cbn [radioEvent]; try exact I; try solve [frame].
  apply band_view_handleMetadata.
Qed.

Lemma in_band_step (s : State) (op : Operation) :
  config_lower_limit s <= config_upper_limit s ->
  in_band s ->
  tuned_in_band (config_lower_limit s) (config_upper_limit s) op ->
  in_band (exec (run_op op) s) /\ limits (exec (run_op op) s) = limits s.
Proof.
  intros Hcfg Hin Hop.
  pose proof (band_view_run_op op) as Hframe.
  destruct op as [| | f | | | mode | | | event];
    try (apply band_view_in_band; [apply Hframe | exact Hin]).
  - (* setFrequency *)
    cbn [run_op]. pose proof (limits_setFrequency f s) as Hl.
    split; [| exact Hl].
    unfold limits in Hl. injection Hl as Hlo Hup.
    unfold in_band in *. rewrite Hlo, Hup, setFrequency_current. cbv zeta.
    repeat match goal with
           | |- context [if ?b then _ else _] => destruct b eqn:?
           end; lia.
  - destruct event;
      try (apply band_view_in_band; [apply Hframe | exact Hin]).
    cbn [run_op radioEvent]. pose proof (limits_handleTuned channel stereo s) as Hl.
    split; [| exact Hl].
    unfold limits in Hl. injection Hl as Hlo Hup.
    unfold in_band. rewrite Hlo, Hup, handleTuned_current. exact Hop.
Qed.

(** C5 as the code has it.  With [lower_limit <= upper_limit]:
    [setFrequency] leaves the current frequency in the band whenever it
    was there before or the request converts to another value than the
    current one; and the band invariant is kept along every run of public
    operations and handlers whose tuned events deliver channels of the
    band. *)
Theorem band_invariant (s : State)
    (Hcfg : config_lower_limit s <= config_upper_limit s) :
  (forall newFrequency,
      in_band s \/ FREQ_QT_TO_HAL newFrequency <> m_currentFreq s ->
      in_band (exec (setFrequency newFrequency) s)) /\
  (forall ops,
      in_band s ->
      Forall (tuned_in_band (config_lower_limit s) (config_upper_limit s)) ops ->
      in_band (run_ops ops s) /\ limits (run_ops ops s) = limits s).
Proof.
  split.
  - intros f [Hin | Hne].
    + apply (in_band_step s (OpSetFrequency f)); [exact Hcfg | exact Hin | exact I].
    + pose proof (limits_setFrequency f s) as Hl.
      unfold limits in Hl. injection Hl as Hlo Hup.
      unfold in_band. rewrite Hlo, Hup, setFrequency_current. cbv zeta.
      apply Z.eqb_neq in Hne. rewrite Hne.
      repeat match goal with
             | |- context [if ?b then _ else _] => destruct b eqn:?
             end; lia.
  - intros ops. revert s Hcfg.
    induction ops as [| op rest IH]; intros s Hcfg Hin Hops; cbn [run_ops].
    + auto.
    + inversion Hops as [| ? ? Hop Hrest]; subst.
      destruct (in_band_step s op Hcfg Hin Hop) as [Hin' Hl].
      assert (Hlo : config_lower_limit (exec (run_op op) s) = config_lower_limit s)
        by (unfold limits in Hl; congruence).
      assert (Hup : config_upper_limit (exec (run_op op) s) = config_upper_limit s)
        by (unfold limits in Hl; congruence).
      destruct (IH (exec (run_op op) s)) as [H1 H2].
      * now rewrite Hlo, Hup.
      * exact Hin'.
      * now rewrite Hlo, Hup.
      * split; [exact H1 | now rewrite H2].
Qed.

Lemma band_invariant_witness :
  in_band (exec (setFrequency (-5)) fallback) /\
  in_band (run_ops [OpStart; OpRadioEvent (RADIO_EVENT_CONFIG 1 true);
                    OpSearchAllStations SearchFast;
                    OpRadioEvent (RADIO_EVENT_TUNED 95000 true);
                    OpSetFrequency 2000000000; OpStop]
                   (exec (setFrequency 90000000) fallback)).
Proof.
  split.
  - refine (proj1 (band_invariant fallback _) (-5) _).
    + vm_compute. discriminate.
    + right. vm_compute. discriminate.
  - refine (proj1 (proj2 (band_invariant
                            (exec (setFrequency 90000000) fallback) _) _ _ _)).
    + vm_compute. discriminate.
    + unfold in_band. vm_compute. split; discriminate.
    + repeat constructor; vm_compute; discriminate.
Defined.

(** C5 as stated fails: on the object as constructed, [setFrequency 0]
    returns at once and leaves the frequency 0 below the band; and a tuned
    event stores a channel above the band as it comes. *)
Lemma band_invariant_counterexample :
  config_lower_limit fallback <= config_upper_limit fallback /\
  ~ in_band (exec (setFrequency 0) fallback) /\
  in_band (exec (setFrequency 90000000) fallback) /\
  ~ in_band (exec (handleTuned 200000 true)
                  (exec (setFrequency 90000000) fallback)).
Proof.
  unfold in_band. vm_compute.
  repeat split; try discriminate; intros [H1 H2]; auto.
Qed.

(** ** A fast sweep over a band with one station *)

Lemma reduce_distance_same (lower upper channel : Z) :
  reduce_distance lower upper (usub channel lower) channel = 0.
Proof.
  unfold reduce_distance. rewrite Z.leb_refl.
  unfold usub at 1. now rewrite Z.sub_diag.
Qed.

Lemma found_frequencies_snoc (l : list Signal) (f : Z) (id : QString) :
  found_frequencies (l ++ [stationFound f id]) = found_frequencies l ++ [f].
Proof.
  induction l as [| x l IH]; cbn; [reflexivity |].
  destruct x; cbn; now rewrite ?IH.
Qed.

(** A tuned event on the channel the sweep is stuck on reports the
    channel once more, takes nothing from the range and scans on. *)
Lemma stuck_step (channel : Z) (stereo : bool) (s : State) :
  stuck_on channel s ->
  let s' := exec (handleTuned channel stereo) s in
  stuck_on channel s' /\
  found_frequencies (emitted s') =
    found_frequencies (emitted s) ++ [FREQ_HAL_TO_QT channel] /\
  m_searching s' = m_searching s /\
  m_searchRange s' = m_searchRange s.
Proof.
  intros (Hall & Hlast & Hfast & Hfirst & Hpos & Hlf & Hr1 & Hr2). cbv zeta.
  rewrite handleTuned_sweep by assumption. cbv zeta.
  assert (Hrange : isub (m_searchRange s) 0 = m_searchRange s).
  { unfold isub. rewrite Z.sub_0_r. apply to_int_small.
    unfold is_int, INT_MIN, INT_MAX, half_modulus in *. lia. }
  apply Z.ltb_lt in Hpos, Hr1.
  revert Hall Hlast Hfast Hfirst Hpos Hlf Hr1 Hr2 Hrange.
  unfold stuck_on, tunedSearchAll, searchForward, seek, tunerEnabled.
  unfold_monad. destruct s.
  cbn [m_searchAll m_searchAllLast m_searchMode m_firstFoundFrequency
       m_lastFrequency m_searchRange config_lower_limit m_searching].
  intros -> -> -> -> Hpos -> Hr1 Hr2 Hrange. run.
  rewrite Hpos. run. rewrite reduce_distance_same, Hrange, Hr1. run.
  destruct (negb (hal_tuner0 && m_tunerReady0)); run.
  - rewrite found_frequencies_snoc. apply Z.ltb_lt in Hpos, Hr1. tauto.
  - destruct (hd 0 hal_returns0 =? 0); run;
      rewrite found_frequencies_snoc; apply Z.ltb_lt in Hpos, Hr1; tauto.
Qed.

(** However many scans end on that channel, each reports it again and
    the sweep goes on. *)
Lemma stuck_forever (channel : Z) (stereo : bool) (n : nat) (s : State) :
  stuck_on channel s ->
  let s' := run_ops (repeat (OpRadioEvent (RADIO_EVENT_TUNED channel stereo)) n)
                    s in
  stuck_on channel s' /\
  found_frequencies (emitted s') =
    found_frequencies (emitted s) ++ repeat (FREQ_HAL_TO_QT channel) n /\
  m_searching s' = m_searching s /\
  m_searchRange s' = m_searchRange s.
Proof.
  revert s. induction n as [| n IH]; intros s Hs; cbn [repeat run_ops].
  - rewrite app_nil_r. auto.
  - destruct (stuck_step channel stereo s Hs) as (Hs' & Hf & Hsearch & Hr).
    destruct (IH _ Hs') as (H1 & H2 & H3 & H4). cbn [run_op radioEvent].
    split; [exact H1 |]. split; [| split].
    + rewrite H2, Hf, <- app_assoc. reflexivity.
    + now rewrite H3.
    + now rewrite H4.
Qed.

Lemma run_ops_app (a b : list Operation) (s : State) :
  run_ops (a ++ b) s = run_ops b (run_ops a s).
Proof.
  revert s. induction a as [| op a IH]; intros s; cbn [app run_ops];
    [reflexivity | apply IH].
Qed.

(** C3 at failing inputs.  The band is 87500 .. 108000, the tuner is at
    90000 and a fast sweep starts; every scan ends on 95000, the only
    station.  After the first tuned event, each of [n] further ones emits
    [stationFound] for 95000 kHz again; the remaining range stays 15500
    and [m_searching] stays true, whatever [n] is. *)
Theorem fast_sweep_single_station (n : nat) :
  let s := run_ops ([OpStart; OpRadioEvent (RADIO_EVENT_CONFIG 1 true);
                     OpSetFrequency 90000000;
                     OpSearchAllStations SearchFast;
                     OpRadioEvent (RADIO_EVENT_TUNED 95000 true)] ++
                    repeat (OpRadioEvent (RADIO_EVENT_TUNED 95000 true)) n)
                   fallback in
  found_frequencies (emitted s) = repeat 95000000 n /\
  m_searching s = true /\ m_searchRange s = 15500 /\
  ((2 <= n)%nat -> ~ NoDup (found_frequencies (emitted s))).
Proof.
  cbv zeta. rewrite run_ops_app.
  set (s1 := run_ops [OpStart; OpRadioEvent (RADIO_EVENT_CONFIG 1 true);
                      OpSetFrequency 90000000;
                      OpSearchAllStations SearchFast;
                      OpRadioEvent (RADIO_EVENT_TUNED 95000 true)] fallback).
  assert (Hs : stuck_on 95000 s1).
  { unfold stuck_on. vm_compute. repeat split; congruence. }
  destruct (stuck_forever 95000 true n s1 Hs) as (_ & Hf & Hsearch & Hr).
  change (found_frequencies (emitted s1)) with (@nil Z) in Hf.
  change (FREQ_HAL_TO_QT 95000) with 95000000 in Hf.
  cbn [app] in Hf.
  split; [exact Hf |]. split; [rewrite Hsearch; reflexivity |].
  split; [rewrite Hr; reflexivity |].
  intros Hn. rewrite Hf.
  destruct n as [| [| n]]; [lia | lia |]. cbn [repeat].
  intros H. inversion H as [| ? ? Hnotin _]; subst.
  apply Hnotin. left. reflexivity.
Qed.

(** A lap over four stations, for comparison: the sweep starts at 90000,
    finds 90100 first and ends when it is back on 90100; each station is
    reported once. *)
Example fast_sweep_four_stations :
  let s := run_ops [OpStart; OpRadioEvent (RADIO_EVENT_CONFIG 1 true);
                    OpSetFrequency 90000000;
                    OpSearchAllStations SearchFast;
                    OpRadioEvent (RADIO_EVENT_TUNED 90100 true);
                    OpRadioEvent (RADIO_EVENT_TUNED 95000 true);
                    OpRadioEvent (RADIO_EVENT_TUNED 107000 false);
                    OpRadioEvent (RADIO_EVENT_TUNED 88000 true);
                    OpRadioEvent (RADIO_EVENT_TUNED 90100 true)] fallback in
  found_frequencies (emitted s) = [95000000; 107000000; 88000000; 90100000] /\
  m_searching s = false /\ m_searchRange s = -100.
Proof. vm_compute. repeat split; reflexivity. Qed.

(** ** What a fast sweep does once the range is used up *)

(** The step that finds the range used up returns [false]; it has
    reported the channel unless it is the first channel of the sweep, and
    reports the first-found frequency after it when the two differ. *)
Lemma tunedSearchAll_exhausted_fast (s : State) (channel : Z) :
  m_searchMode s = SearchFast ->
  isub (m_searchRange s)
       (reduce_distance (config_lower_limit s) (config_upper_limit s)
                        (m_lastFrequency s) channel) <= 0 ->
  let s2 := exec (tunedSearchAll channel) s in
  eval (tunedSearchAll channel) s = false /\
  m_searchAllLast s2 = true /\
  found_frequencies (emitted s2) =
    found_frequencies (emitted s) ++
    (if 0 <? m_firstFoundFrequency s then
       FREQ_HAL_TO_QT channel ::
       (if m_firstFoundFrequency s =? channel then []
        else [FREQ_HAL_TO_QT (m_firstFoundFrequency s)])
     else []).
Proof.
  intros Hfast Hex. apply Z.ltb_ge in Hex. revert Hfast Hex.
  unfold tunedSearchAll. unfold_monad. destruct s.
  cbn [m_searchMode m_firstFoundFrequency m_searchRange config_lower_limit
       config_upper_limit m_lastFrequency m_stationId].
  intros -> Hex. run.
  destruct (0 <? m_firstFoundFrequency0) eqn:E1; run; rewrite Hex; run.
  - destruct (m_firstFoundFrequency0 =? channel) eqn:E2; run.
    + repeat split; try reflexivity. apply found_frequencies_snoc.
    + repeat split; try reflexivity.
      rewrite !found_frequencies_snoc, <- app_assoc. reflexivity.
  - rewrite Z.eqb_refl. run. rewrite app_nil_r. repeat split; reflexivity.
Qed.

(** A fast sweep ends with the tuned event that uses up the range. *)
Lemma fast_sweep_exhausted_stops (s : State) (channel : Z) (stereo : bool) :
  m_searchAll s = true -> m_searchAllLast s = false ->
  m_searchMode s = SearchFast ->
  isub (m_searchRange s)
       (reduce_distance (config_lower_limit s) (config_upper_limit s)
                        (m_lastFrequency s) channel) <= 0 ->
  let s' := exec (handleTuned channel stereo) s in
  m_searching s' = false /\ m_searchAll s' = false /\ m_seekTimer s' = false.
Proof.
  intros Hall Hlast Hfast Hex. cbv zeta.
  rewrite handleTuned_sweep by assumption. cbv zeta.
  pose proof (tunedSearchAll_exhausted_fast (set_m_currentFreq channel s)
                channel Hfast Hex) as H.
  cbv zeta in H. destruct H as [Hev [Hl _]]. rewrite Hev.
  pose proof (handleTuned_done_last _ stereo Hl) as H. cbv zeta in H.
  tauto.
Qed.

(** * Further properties *)

(** ** Rules for the properties of computations *)

Lemma handleMetadataItems_closed (Q : M unit -> Prop) :
  Q (ret tt) ->
  (forall (m : M unit) (k : unit -> M unit),
      Q m -> (forall a, Q (k a)) -> Q (bind m k)) ->
  (forall key value, Q (handleMetadataItem key value)) ->
  forall l, Q (handleMetadataItems l).
Proof.
  intros Hret Hbind Hitem l.
  induction l as [| it rest IH]; cbn [handleMetadataItems]; [exact Hret |].
  destruct (item_ret it =? 0); [| exact Hret].
  apply Hbind; [apply Hitem | intros _; exact IH].
Qed.

Section EmitsOnly.

Variable p : Signal -> bool.

Lemma emits_only_ret {A} (a : A) : emits_only p (ret a).
Proof. intros s. exists []. now rewrite app_nil_r. Qed.

Lemma emits_only_gets {A} (g : State -> A) : emits_only p (gets g).
Proof. intros s. exists []. now rewrite app_nil_r. Qed.

Lemma emits_only_bind {A B} (m : M A) (k : A -> M B) :
  emits_only p m -> (forall a, emits_only p (k a)) -> emits_only p (bind m k).
Proof.
  intros Hm Hk s. rewrite exec_bind.
  destruct (Hm s) as [n1 [E1 F1]].
  destruct (Hk (eval m s) (exec m s)) as [n2 [E2 F2]].
  exists (n1 ++ n2). split.
  - now rewrite E2, E1, app_assoc.
  - now rewrite forallb_app, F1, F2.
Qed.

Lemma emits_only_when (b : bool) (m : M unit) :
  emits_only p m -> emits_only p (when b m).
Proof. intros Hm. destruct b; [exact Hm | apply emits_only_ret]. Qed.

Lemma emits_only_modify (g : State -> State) :
  (forall s, emitted (g s) = emitted s) -> emits_only p (modify g).
Proof.
  intros Hg s. exists []. unfold exec, modify. cbn [snd].
  now rewrite Hg, app_nil_r.
Qed.

Lemma emits_only_emit (sig : Signal) : p sig = true -> emits_only p (emit sig).
Proof.
  intros Hp s. exists [sig]. split; [reflexivity |].
  cbn. now rewrite Hp.
Qed.

Lemma emits_only_hal_call (cmd : HalCommand) : emits_only p (hal_call cmd).
Proof. intros s. exists []. now rewrite app_nil_r. Qed.

End EmitsOnly.

Ltac emits_step :=
  lazymatch goal with
  | |- emits_only _ (bind _ _) => apply emits_only_bind; [| intro]
  | |- emits_only _ (ret _) => apply emits_only_ret
  | |- emits_only _ (gets _) => apply emits_only_gets
  | |- emits_only _ (when _ _) => apply emits_only_when
  | |- emits_only _ (modify _) => apply emits_only_modify; intro; reflexivity
  | |- emits_only _ (hal_call _) => apply emits_only_hal_call
  | |- emits_only _ (emit _) => apply emits_only_emit; reflexivity
  | |- emits_only _ (if ?b then _ else _) => destruct b
  | |- emits_only _ (match ?x with _ => _ end) => destruct x
  | |- emits_only _ (let _ := _ in _) => cbv zeta
  | |- emits_only _ (handleMetadataItems _) =>
      apply (handleMetadataItems_closed (emits_only _));
      [apply emits_only_ret | intros; now apply emits_only_bind | intros]
  | |- emits_only _ _ => progress autounfold with radio
  end.

Ltac emits := repeat emits_step.

Section Maintains.

Variable I : State -> Prop.

Lemma maintains_ret {A} (a : A) : maintains I (ret a).
Proof. intros s H. exact H. Qed.

Lemma maintains_gets {A} (g : State -> A) : maintains I (gets g).
Proof. intros s H. exact H. Qed.

Lemma maintains_bind {A B} (m : M A) (k : A -> M B) :
  maintains I m -> (forall a, maintains I (k a)) -> maintains I (bind m k).
Proof. intros Hm Hk s H. rewrite exec_bind. apply Hk, Hm, H. Qed.

Lemma maintains_when (b : bool) (m : M unit) :
  maintains I m -> maintains I (when b m).
Proof. intros Hm. destruct b; [exact Hm | apply maintains_ret]. Qed.

End Maintains.

Section SilentWhenClosed.

Lemma silent_ret {A} (a : A) : silent_when_closed (ret a).
Proof. intros s H. auto. Qed.

Lemma silent_gets {A} (g : State -> A) : silent_when_closed (gets g).
Proof. intros s H. auto. Qed.

Lemma silent_bind {A B} (m : M A) (k : A -> M B) :
  silent_when_closed m -> (forall a, silent_when_closed (k a)) ->
  silent_when_closed (bind m k).
Proof.
  intros Hm Hk s H. rewrite exec_bind.
  destruct (Hm s H) as [H1 H2].
  destruct (Hk (eval m s) (exec m s) H1) as [H3 H4].
  split; [exact H3 | now rewrite H4].
Qed.

Lemma silent_when (b : bool) (m : M unit) :
  silent_when_closed m -> silent_when_closed (when b m).
Proof. intros Hm. destruct b; [exact Hm | apply silent_ret]. Qed.

Lemma silent_modify (g : State -> State) :
  (forall s, hal_tuner (g s) = hal_tuner s) ->
  (forall s, hal_calls (g s) = hal_calls s) ->
  silent_when_closed (modify g).
Proof.
  intros H1 H2 s H. unfold exec, modify. cbn [snd].
  now rewrite H1, H2.
Qed.

End SilentWhenClosed.

(** ** Choosing the band configuration *)

Lemma setRadioConfig_find (bands : list radio_hal_band_config_t) (band : Z)
    (deemphasis : radio_deemphasis_t) (config : radio_hal_band_config_t) :
  setRadioConfig bands band deemphasis config =
    match find (band_matches band deemphasis) bands with
    | Some b => (true, copy_band b)
    | None => (false, config)
    end.
Proof.
  induction bands as [| b rest IH]; cbn [setRadioConfig find]; [reflexivity |].
  unfold band_matches at 1.
  destruct ((band_type b =? band) &&
            radio_deemphasis_eqb (band_fm_deemphasis b) deemphasis);
    [reflexivity | exact IH].
Qed.

Lemma radio_deemphasis_eqb_eq (a b : radio_deemphasis_t) :
  radio_deemphasis_eqb a b = true <-> a = b.
Proof. destruct a, b; cbn; split; congruence. Qed.

Lemma find_first {A} (f : A -> bool) (l : list A) (x : A) :
  find f l = Some x ->
  exists pre post, l = pre ++ x :: post /\ forallb (fun y => negb (f y)) pre = true.
Proof.
  induction l as [| y l IH]; cbn [find]; [discriminate |].
  destruct (f y) eqn:E.
  - intros [= ->]. now exists [], l.
  - intros H. destruct (IH H) as (pre & post & -> & Hpre).
    exists (y :: pre), post. split; [reflexivity |].
    cbn. now rewrite E.
Qed.

(** X1.  [setRadioConfig] takes the first band of the list that has the
    requested type and de-emphasis: when it returns [true] the
    configuration is a copy of that band with [fm.ea] cleared, and no
    earlier band matches; when it returns [false] no band matches and the
    configuration is the one before. *)
Theorem setRadioConfig_first_match (bands : list radio_hal_band_config_t)
    (band : Z) (deemphasis : radio_deemphasis_t)
    (config : radio_hal_band_config_t) :
  let r := setRadioConfig bands band deemphasis config in
  (fst r = true ->
   exists pre b post,
     bands = pre ++ b :: post /\
     forallb (fun y => negb (band_matches band deemphasis y)) pre = true /\
     snd r = copy_band b /\
     band_type (snd r) = band /\
     band_fm_deemphasis (snd r) = deemphasis /\
     band_lower_limit (snd r) = band_lower_limit b /\
     band_upper_limit (snd r) = band_upper_limit b /\
     band_fm_ea (snd r) = false) /\
  (fst r = false ->
   snd r = config /\
   forallb (fun y => negb (band_matches band deemphasis y)) bands = true).
Proof.
  cbv zeta. rewrite setRadioConfig_find.
  destruct (find (band_matches band deemphasis) bands) as [b |] eqn:E;
    cbn [fst snd]; split; try discriminate.
  - intros _. destruct (find_first _ _ _ E) as (pre & post & Hl & Hpre).
    apply find_some in E. destruct E as [_ Hm].
    unfold band_matches in Hm. apply andb_true_iff in Hm.
    destruct Hm as [Ht Hd]. apply Z.eqb_eq in Ht.
    apply radio_deemphasis_eqb_eq in Hd.
    exists pre, b, post. repeat split; assumption.
  - intros _. split; [reflexivity |].
    apply forallb_forall. intros y Hy.
    now rewrite (find_none _ _ E y Hy).
Qed.

Section RegionsFacts.

Variable radio_demephasis_for_region : radio_region_t -> radio_deemphasis_t.
Variable radio_rds_for_region : bool -> radio_region_t -> radio_rds_t.


End RegionsFacts.

(** ** The program-type tables *)

(** X3.  For every type code of a metadata record: a code of 32 or more
    is treated as 0; the program type returned lies in 0 .. 47 (the RDS
    standard returns the code itself); and the name is an entry of the
    table of the standard, so no lookup leaves the 32 entries. *)
Theorem programType_in_table (rdsStandard type : Z) (Htype : 0 <= type) :
  0 <= programTypeValue rdsStandard type <= 47 /\
  (rdsStandard = 0 -> type < 32 -> programTypeValue rdsStandard type = type) /\
  (32 <= type ->
   programTypeValue rdsStandard type = 0 /\
   programTypeNameString rdsStandard type = programTypeNameString rdsStandard 0) /\
  In (programTypeNameString rdsStandard type)
     (if rdsStandard =? 0 then rdsTypeNames else rbdsTypeNames).
Proof.
  unfold programTypeValue, programTypeNameString. cbv zeta.
  destruct (Z.leb_spec 32 type) as [Hbig | Hsmall].
  - destruct (rdsStandard =? 0) eqn:E; cbn;
      repeat split; try lia; try reflexivity; auto.
  - assert (Hn : (Z.to_nat type < 32)%nat) by lia.
    assert (Hv : 0 <= nth (Z.to_nat type) rbdsTypes 0 <= 47).
    { revert Hn. generalize (Z.to_nat type) as n. intros n Hn.
      do 32 (destruct n as [| n]; [cbn; lia |]). lia. }
    destruct (Z.eqb_spec rdsStandard 0) as [-> | Hne].
    + repeat split; try lia.
      apply nth_In. exact Hn.
    + repeat split; try lia.
      apply nth_In. exact Hn.
Qed.

Lemma programType_in_table_witness :
  programTypeValue 1 4 = 32 /\ programTypeValue 1 40 = 0 /\
  In (programTypeNameString 1 4) rbdsTypeNames.
Proof.
  pose proof (programType_in_table 1 4 ltac:(lia)) as [_ [_ [_ H]]].
  split; [reflexivity | split; [reflexivity | exact H]].
Defined.

(** ** Clearing the RDS values *)

Lemma resetRDS_noop (s : State) :
  m_radioText s = [] -> m_stationName s = [] -> m_programType s = 0 ->
  m_stationId s = [] -> resetRDS s = (tt, s).
Proof.
  unfold resetRDS. unfold_monad. destruct s.
  cbn [m_radioText m_stationName m_programType m_stationId].
  intros -> -> -> ->. reflexivity.
Qed.

Lemma resetRDS_effect (s : State) :
  let s' := exec resetRDS s in
  m_radioText s' = [] /\ m_stationName s' = [] /\
  m_programType s' = 0 /\ m_stationId s' = [] /\
  emitted s' =
    emitted s ++
    (if QString_isEmpty (m_radioText s) then [] else [radioTextChanged []]) ++
    (if QString_isEmpty (m_stationName s) then []
     else [stationNameChanged []]) ++
    (if m_programType s =? 0 then []
     else [programTypeChanged 0;
           programTypeNameChanged "No programme type or undefined"]) ++
    (if QString_isEmpty (m_stationId s) then [] else [stationIdChanged []]) /\
  hal_calls s' = hal_calls s.
Proof.
  unfold resetRDS. unfold_monad. destruct s.
  cbn [m_radioText m_stationName m_programType m_stationId emitted hal_calls].
  destruct (Z.eqb_spec m_programType0 0) as [-> | Hne];
    [| apply Z.eqb_neq in Hne];
    destruct m_radioText0, m_stationName0, m_stationId0; run;
    rewrite ?Z.eqb_refl, ?Hne; run;
    rewrite <- ?app_assoc, ?app_nil_r; cbn [app];
    repeat split; reflexivity.
Qed.

(** X4.  After [resetRDS] the radio text, the station name and the
    station identifier are empty and the program type is 0; it emits one
    signal for each value that was set (two for the program type), in the
    order text, name, type, identifier, each carrying the cleared value;
    and a second [resetRDS] changes nothing. *)
Theorem resetRDS_clears (s : State) :
  let s' := exec resetRDS s in
  m_radioText s' = [] /\ m_stationName s' = [] /\
  m_programType s' = 0 /\ m_stationId s' = [] /\
  emitted s' =
    emitted s ++
    (if QString_isEmpty (m_radioText s) then [] else [radioTextChanged []]) ++
    (if QString_isEmpty (m_stationName s) then []
     else [stationNameChanged []]) ++
    (if m_programType s =? 0 then []
     else [programTypeChanged 0;
           programTypeNameChanged "No programme type or undefined"]) ++
    (if QString_isEmpty (m_stationId s) then [] else [stationIdChanged []]) /\
  hal_calls s' = hal_calls s /\
  exec resetRDS s' = s'.
Proof.
  cbv zeta. pose proof (resetRDS_effect s) as H. cbv zeta in H.
  destruct H as (H1 & H2 & H3 & H4 & H5 & H6).
  repeat split; try assumption.
  unfold exec at 1. now rewrite resetRDS_noop.
Qed.

(** ** Opening and closing the tuner *)

(** X5.  [start] does nothing when the device is missing or the tuner
    is already open.  Otherwise it calls [open_tuner] and nothing else,
    the tuner is open afterwards exactly when the call returned 0, and the
    three search flags are cleared without any signal. *)
Theorem start_opens (s : State) :
  let s' := exec start s in
  (hal_radiohw s = false \/ hal_tuner s = true -> s' = s) /\
  (hal_radiohw s = true -> hal_tuner s = false ->
   hal_calls s' = hal_calls s ++ [open_tuner] /\
   hal_tuner s' = (hd 0 (hal_returns s) =? 0) /\
   m_searching s' = false /\ m_searchAll s' = false /\
   m_searchAllLast s' = false /\
   emitted s' = emitted s /\ m_tunerReady s' = m_tunerReady s /\
   m_currentFreq s' = m_currentFreq s).
Proof.
  unfold start. unfold_monad. destruct s. run. split.
  - intros [-> | ->]; run; [reflexivity |].
    rewrite orb_true_r. reflexivity.
  - intros -> ->. run.
    destruct (hd 0 hal_returns0 =? 0); run; repeat split; reflexivity.
Qed.

(** X6.  [stop] does nothing when the tuner is not open.  On an open
    tuner it cancels a search first when one runs on an enabled tuner
    ([cancel] is called and [searchingChanged false] emitted), then calls
    [close_tuner] and emits [stateChanged StoppedState] whatever the call
    returns; afterwards the tuner is closed and not ready.  A search
    started on a tuner that was open but not ready is not cancelled:
    [m_searching] stays set. *)
Theorem stop_closes (s : State) :
  let s' := exec stop s in
  let cancelling := m_searching s && m_tunerReady s in
  (hal_radiohw s = false \/ hal_tuner s = false -> s' = s) /\
  (hal_radiohw s = true -> hal_tuner s = true ->
   hal_tuner s' = false /\ m_tunerReady s' = false /\
   eval tunerEnabled s' = false /\
   hal_calls s' =
     hal_calls s ++ (if cancelling then [cancel] else []) ++ [close_tuner] /\
   emitted s' =
     emitted s ++ (if cancelling then [searchingChanged false] else []) ++
     [stateChanged StoppedState] /\
   m_searching s' = (m_searching s && negb (m_tunerReady s)) /\
   m_currentFreq s' = m_currentFreq s).
Proof.
  unfold stop, cancelSearch, setSearching, tunerEnabled. unfold_monad.
  destruct s. run. split.
  - intros [-> | ->]; run; [reflexivity |].
    rewrite orb_true_r. reflexivity.
  - intros -> ->. run.
    destruct m_searching0, m_tunerReady0, m_seekTimer0; run;
      rewrite <- ?app_assoc; repeat split; reflexivity.
Qed.

Lemma stop_closes_witness :
  let s := run_ops [OpStart; OpRadioEvent (RADIO_EVENT_CONFIG 1 true);
                    OpSearchForward] fallback in
  hal_calls (exec stop s) =
    [open_tuner; scan RADIO_DIRECTION_UP; cancel; close_tuner] /\
  m_searching (exec stop s) = false.
Proof.
  cbv zeta.
  pose proof (stop_closes
                (run_ops [OpStart; OpRadioEvent (RADIO_EVENT_CONFIG 1 true);
                          OpSearchForward] fallback)) as H.
  cbv zeta in H. destruct H as [_ H].
  destruct (H eq_refl eq_refl) as (_ & _ & _ & Hc & _ & Hs & _).
  split; [exact Hc | exact Hs].
Defined.


(** X8.  A hardware failure leaves the tuner error at [ResourceError],
    announced once (not again when it was already held), and stops the
    tuner: with the device present the tuner is closed afterwards. *)
Theorem handleHwFailure_stops (s : State) (Hdev : hal_radiohw s = true) :
  let s' := exec handleHwFailure s in
  m_error s' = ResourceError /\
  hal_tuner s' = false /\ eval tunerEnabled s' = false /\
  (exists rest,
     emitted s' =
       emitted s ++
       (if TunerError_eqb ResourceError (m_error s) then []
        else [error ResourceError]) ++ rest /\
     last_of sel_error rest = None) /\
  (hal_tuner s = true ->
   exists pre, hal_calls s' = pre ++ [close_tuner]).
Proof.
  revert Hdev.
  unfold handleHwFailure, setError, stop, cancelSearch, setSearching,
    tunerEnabled.
  unfold_monad. destruct s. run. intros ->. run.
  destruct m_error0, hal_tuner0; run;
    try (destruct m_searching0, m_tunerReady0, m_seekTimer0; run);
    rewrite <- ?app_assoc; cbn [app];
    (split; [reflexivity | split; [reflexivity | split; [reflexivity |]]]);
    (split;
     [ first [ eexists; split; [reflexivity | reflexivity]
             | exists []; split; [now rewrite ?app_nil_r | reflexivity] ]
     | try discriminate; intros _;
       first [ exists hal_calls0; reflexivity
             | exists (hal_calls0 ++ [cancel]);
               rewrite <- app_assoc; reflexivity ] ]).
Qed.

Lemma handleHwFailure_stops_witness :
  let s := run_ops [OpStart; OpRadioEvent (RADIO_EVENT_CONFIG 1 true)]
                   fallback in
  m_error (exec handleHwFailure s) = ResourceError /\
  hal_tuner (exec handleHwFailure s) = false.
Proof.
  cbv zeta.
  pose proof (handleHwFailure_stops
                (run_ops [OpStart; OpRadioEvent (RADIO_EVENT_CONFIG 1 true)]
                         fallback) eq_refl) as H.
  cbv zeta in H. destruct H as (H1 & H2 & _).
  split; [exact H1 | exact H2].
Defined.

(** ** Running a computation step by step *)

Lemma eval_bind {A B} (m : M A) (k : A -> M B) (s : State) :
  eval (bind m k) s = eval (k (eval m s)) (exec m s).
Proof. unfold exec, eval, bind. now destruct (m s). Qed.

Lemma exec_ret {A} (a : A) (s : State) : exec (ret a) s = s.
Proof. reflexivity. Qed.

Lemma eval_ret {A} (a : A) (s : State) : eval (ret a) s = a.
Proof. reflexivity. Qed.

Lemma exec_gets {A} (f : State -> A) (s : State) : exec (gets f) s = s.
Proof. reflexivity. Qed.

Lemma eval_gets {A} (f : State -> A) (s : State) : eval (gets f) s = f s.
Proof. reflexivity. Qed.

Lemma exec_modify (g : State -> State) (s : State) : exec (modify g) s = g s.
Proof. reflexivity. Qed.

Lemma exec_when (b : bool) (m : M unit) (s : State) :
  exec (when b m) s = if b then exec m s else s.
Proof. now destruct b. Qed.

Lemma exec_if {A} (b : bool) (m1 m2 : M A) (s : State) :
  exec (if b then m1 else m2) s = if b then exec m1 s else exec m2 s.
Proof. now destruct b. Qed.

Lemma eval_if {A} (b : bool) (m1 m2 : M A) (s : State) :
  eval (if b then m1 else m2) s = if b then eval m1 s else eval m2 s.
Proof. now destruct b. Qed.

Lemma exec_emit (sig : Signal) (s : State) :
  exec (emit sig) s = set_emitted (emitted s ++ [sig]) s.
Proof. reflexivity. Qed.

Lemma exec_hal_call (cmd : HalCommand) (s : State) :
  exec (hal_call cmd) s =
    set_hal_returns (tl (hal_returns s)) (set_hal_calls (hal_calls s ++ [cmd]) s).
Proof. reflexivity. Qed.

Lemma eval_hal_call (cmd : HalCommand) (s : State) :
  eval (hal_call cmd) s = hd 0 (hal_returns s).
Proof. reflexivity. Qed.

Lemma eval_tunerEnabled (s : State) :
  eval tunerEnabled s = hal_tuner s && m_tunerReady s.
Proof. reflexivity. Qed.

Lemma exec_tunerEnabled (s : State) : exec tunerEnabled s = s.
Proof. reflexivity. Qed.

(** [resetRDS] in closed form: the four values are cleared and the
    signals of [resetRDS_signals] appended. *)
Lemma exec_resetRDS (s : State) :
  exec resetRDS s =
  set_emitted (emitted s ++ resetRDS_signals s)
    (set_m_stationId []
       (set_m_programType 0 (set_m_stationName [] (set_m_radioText [] s)))).
Proof.
  destruct s.
  destruct m_programType0 as [| p | p], m_radioText0, m_stationName0,
    m_stationId0; vm_compute; fold (@app Signal);
    rewrite <- ?app_assoc, ?app_nil_r; reflexivity.
Qed.

(** Fields of updated states. *)
Ltac fields :=
  cbn [hal_radiohw hal_tuner config_lower_limit config_upper_limit
       config_fm_rds m_error m_rdsError m_tunerReady m_antennaConnected
       m_stereoEnabled m_currentFreq m_searchMode m_seekTimer m_searching
       m_searchAll m_searchAllLast m_searchWaitForRDS m_firstFoundFrequency
       m_searchRange m_lastFrequency m_stationId m_stationName m_programType
       m_radioText emitted hal_calls hal_returns
       set_hal_tuner set_m_error set_m_rdsError set_m_tunerReady
       set_m_antennaConnected set_m_stereoEnabled set_m_currentFreq
       set_m_searchMode set_m_seekTimer set_m_searching set_m_searchAll
       set_m_searchAllLast set_m_searchWaitForRDS set_m_firstFoundFrequency
       set_m_searchRange set_m_lastFrequency set_m_stationId
       set_m_stationName set_m_programType set_m_radioText set_emitted
       set_hal_calls set_hal_returns negb andb orb].

Lemma when_true (m : M unit) : when true m = m.
Proof. reflexivity. Qed.

Lemma when_false (m : M unit) : when false m = ret tt.
Proof. reflexivity. Qed.

(** A test that the steps so far have reduced to fields of the state. *)
Ltac decided b :=
  lazymatch b with
  | true => fail
  | false => fail
  | context [exec] => fail
  | context [eval] => fail
  | _ => idtac
  end.

(** A test is settled by a fact of the context, or splits the goal. *)
Ltac settle b :=
  decided b;
  first [ match goal with
          | H : b = true |- _ => rewrite H
          | H : b = false |- _ => rewrite H
          end
        | destruct b eqn:? ].

(** A state that the steps so far have brought to a chain of updates. *)
Ltac reached s :=
  lazymatch s with
  | context [exec] => fail
  | _ => idtac
  end.

(** One step of the computation in the goal, taken where the state is
    reached: a primitive is run, a test settled, a sequence entered. *)
Ltac exec_step :=
  first [ rewrite when_true | rewrite when_false
        | match goal with
          | |- context [eval ?m ?s] =>
              reached s;
              lazymatch m with
              | ret ?a => rewrite (eval_ret a s)
              | gets ?f => rewrite (eval_gets f s)
              | hal_call ?c => rewrite (eval_hal_call c s)
              | tunerEnabled => rewrite (eval_tunerEnabled s)
              | bind ?a ?k => rewrite (eval_bind a k s)
              | (if ?b then _ else _) => settle b
              end
          end
        | match goal with
          | |- context [exec ?m ?s] =>
              reached s;
              lazymatch m with
              | ret ?a => rewrite (exec_ret a s)
              | gets ?f => rewrite (exec_gets f s)
              | modify ?g => rewrite (exec_modify g s)
              | emit ?sig => rewrite (exec_emit sig s)
              | hal_call ?c => rewrite (exec_hal_call c s)
              | tunerEnabled => rewrite (exec_tunerEnabled s)
              | resetRDS => rewrite (exec_resetRDS s)
              | bind ?a ?k => rewrite (exec_bind a k s)
              | when ?b _ => settle b
              | (if ?b then _ else _) => settle b
              end
          end ];
  cbv beta iota; fields.

(** The goal is put in the form [Post (exec m s)] for the steps, and
    back when the computation is over. *)
Ltac focus_state :=
  match goal with
  | |- context [exec ?m ?s] =>
      pattern (exec m s);
      match goal with
      | |- ?Q _ => let P := fresh "Post" in set (P := Q)
      end
  end.

Ltac unfocus_state :=
  repeat match goal with
         | P := _ |- _ => unfold P; clear P
         end;
  cbv beta; fields.

Ltac exec_all := focus_state; repeat exec_step; unfocus_state.

(** The same, with facts about the first state used at each step. *)
Tactic Notation "exec_all" "using" tactic3(facts) :=
  focus_state; repeat (facts; exec_step); unfocus_state.

(** The tests met on the way are used in the goal. *)
Ltac use_tests :=
  repeat match goal with
         | H : negb _ = true |- _ => apply negb_true_iff in H
         | H : negb _ = false |- _ => apply negb_false_iff in H
         | H : Bool.eqb _ _ = true |- _ => apply Bool.eqb_prop in H
         | H : Bool.eqb ?a true = false |- _ =>
             destruct a; [discriminate H | clear H]
         | H : Bool.eqb ?a false = false |- _ =>
             destruct a; [clear H | discriminate H]
         | H : (_ =? _) = true |- _ => apply Z.eqb_eq in H
         end;
  repeat match goal with
         | H : ?b = true |- _ => rewrite H in *; clear H
         | H : ?b = false |- _ => rewrite H in *; clear H
         end;
  subst;
  rewrite ?Bool.eqb_reflx, ?Z.eqb_refl in *;
  cbn [orb andb negb app fst snd] in *;
  rewrite <- ?app_assoc, ?app_nil_r; cbn [app].

Ltac exec_done := use_tests; repeat split; try reflexivity; try discriminate.

(** Evaluation of a state whose tests are decided, in the virtual
    machine; the logs are put in the form [log ++ [new; ...]]. *)
Ltac compute_state :=
  vm_compute; fold (@app Signal); fold (@app HalCommand);
  rewrite <- ?app_assoc, ?app_nil_r; cbn [app].

(** The code the next HAL call returns is 0. *)
Lemma next_return_zero (l : list Z) :
  hd 0 l = 0 -> l = [] \/ exists l', l = 0 :: l'.
Proof.
  destruct l as [| r l']; [now left | right].
  cbn in H. subst r. now exists l'.
Qed.

Lemma cancelSearch_disabled (s : State) :
  eval tunerEnabled s = false -> cancelSearch s = (tt, s).
Proof.
  unfold cancelSearch, tunerEnabled. unfold_monad. cbn.
  intros ->. cbn. now rewrite orb_true_r.
Qed.

(** ** Seeking *)

(** X9.  A seek outside a sweep, on an enabled tuner, whose scan the HAL
    accepts: the RDS values are cleared as by [resetRDS], the timer is
    armed, one [scan] in the requested direction is called, and
    [m_searching] is set, with [searchingChanged true] emitted unless a
    search was already running. *)
Theorem seek_starts_search (s : State) (direction : radio_direction_t)
    (Hen : eval tunerEnabled s = true) (Hall : m_searchAll s = false)
    (Hret : hd 0 (hal_returns s) = 0) :
  let s' := exec (seek direction) s in
  hal_calls s' = hal_calls s ++ [scan direction] /\
  m_seekTimer s' = true /\ m_searching s' = true /\
  m_radioText s' = [] /\ m_stationName s' = [] /\
  m_programType s' = 0 /\ m_stationId s' = [] /\
  emitted s' =
    emitted (exec resetRDS s) ++
    (if m_searching s then [] else [searchingChanged true]) /\
  m_currentFreq s' = m_currentFreq s.
Proof.
  destruct s. unfold eval, tunerEnabled, gets in Hen. cbn in Hen, Hall, Hret.
  apply andb_true_iff in Hen. destruct Hen as [-> ->]. subst m_searchAll0.
  destruct (next_return_zero _ Hret) as [-> | [l ->]];
    destruct m_programType0 as [| p | p],
      m_radioText0, m_stationName0, m_stationId0, m_searching0;
    compute_state; repeat split; reflexivity.
Qed.

Lemma seek_starts_search_witness :
  let s := run_ops [OpStart; OpRadioEvent (RADIO_EVENT_CONFIG 1 true)]
                   fallback in
  hal_calls (exec (seek RADIO_DIRECTION_DOWN) s) =
    [open_tuner; scan RADIO_DIRECTION_DOWN] /\
  m_searching (exec (seek RADIO_DIRECTION_DOWN) s) = true.
Proof.
  cbv zeta.
  pose proof (seek_starts_search
                (run_ops [OpStart; OpRadioEvent (RADIO_EVENT_CONFIG 1 true)]
                         fallback)
                RADIO_DIRECTION_DOWN eq_refl eq_refl eq_refl) as H.
  cbv zeta in H. destruct H as (H1 & _ & H3 & _).
  split; [exact H1 | exact H3].
Defined.

(** Apart from the RDS values and the log of signals, [resetRDS] leaves
    the state as it is. *)
Lemma resetRDS_frame :
  preserves (fun s => (hal_tuner s, m_tunerReady s, m_seekTimer s,
                       m_searchWaitForRDS s, config_fm_rds s,
                       config_lower_limit s, config_upper_limit s,
                       m_currentFreq s, m_searching s, hal_calls s,
                       hal_returns s, m_searchAll s))
            resetRDS.
Proof. frame. Qed.

(** What [searchAllStations] stores, in the arithmetic of the source. *)
Lemma searchAllStations_fields (s : State) (searchMode : SearchMode) :
  let s' := exec (searchAllStations searchMode) s in
  m_searchMode s' =
    (if radio_rds_eqb (config_fm_rds s) RADIO_RDS_NONE then SearchFast
     else searchMode) /\
  m_searchAll s' = true /\ m_searchAllLast s' = false /\
  m_firstFoundFrequency s' = 0 /\
  m_searchRange s' =
    to_int (usub (config_upper_limit s) (config_lower_limit s)) /\
  m_lastFrequency s' = usub (m_currentFreq s) (config_lower_limit s) /\
  m_searching s' = true /\
  m_currentFreq s' = m_currentFreq s /\
  m_searchWaitForRDS s' =
    (SearchMode_eqb (m_searchMode s') SearchGetStationId ||
     m_searchWaitForRDS s) /\
  m_seekTimer s' = (eval tunerEnabled s || m_seekTimer s) /\
  hal_calls s' =
    hal_calls s ++
    (if eval tunerEnabled s then [scan RADIO_DIRECTION_UP] else []).
Proof.
  cbv zeta. rewrite !eval_tunerEnabled.
  unfold searchAllStations. rewrite exec_bind.
  pose proof (resetRDS_frame s) as Hv. cbv beta in Hv.
  injection Hv as E1 E2 E3 E4 E5 E6 E7 E8 E9 E10 E11 E12.
  cbv beta.
  rewrite <- ?E1, <- ?E2, <- ?E3, <- ?E4, <- ?E5, <- ?E6, <- ?E7, <- ?E8,
    <- ?E9, <- ?E10, <- ?E11.
  clear E1 E2 E3 E4 E5 E6 E7 E8 E9 E10 E11 E12.
  generalize (exec resetRDS s) as s1. clear s. intros s.
  unfold searchForward, seek, setSearching.
  exec_all; exec_done.
Qed.

(** X10.  [searchAllStations] on an enabled tuner starts the sweep: the
    mode is the requested one, or [SearchFast] when the band has no RDS;
    no first frequency is recorded; the remaining range is the span of the
    band and the last position the current frequency relative to the lower
    limit (as integers, for a current frequency of a band within [int]);
    [m_searching] is set, the timer armed and one forward [scan] called. *)
Theorem searchAllStations_starts (s : State) (searchMode : SearchMode)
    (Hen : eval tunerEnabled s = true) :
  let s' := exec (searchAllStations searchMode) s in
  let lower := config_lower_limit s in
  let upper := config_upper_limit s in
  m_searchMode s' =
    (if radio_rds_eqb (config_fm_rds s) RADIO_RDS_NONE then SearchFast
     else searchMode) /\
  m_searchAll s' = true /\ m_searchAllLast s' = false /\
  m_firstFoundFrequency s' = 0 /\
  m_searchRange s' = to_int (usub upper lower) /\
  m_lastFrequency s' = usub (m_currentFreq s) lower /\
  (0 <= lower -> lower <= m_currentFreq s <= upper -> upper <= INT_MAX ->
   m_searchRange s' = upper - lower /\
   m_lastFrequency s' = m_currentFreq s - lower) /\
  m_searching s' = true /\ m_seekTimer s' = true /\
  hal_calls s' = hal_calls s ++ [scan RADIO_DIRECTION_UP] /\
  m_currentFreq s' = m_currentFreq s.
Proof.
  cbv zeta.
  pose proof (searchAllStations_fields s searchMode) as H. cbv zeta in H.
  destruct H as (H1 & H2 & H3 & H4 & H5 & H6 & H7 & H8 & _ & H10 & H11).
  rewrite Hen in H10, H11. cbn [orb] in H10.
  repeat split; try assumption.
  - rewrite H5. unfold INT_MAX, half_modulus in *. unfold usub.
    rewrite to_unsigned_small by (unfold is_unsigned, modulus; lia).
    apply to_int_small. unfold is_int, INT_MIN, INT_MAX, half_modulus. lia.
  - rewrite H6. unfold INT_MAX, half_modulus in *. unfold usub.
    apply to_unsigned_small. unfold is_unsigned, modulus. lia.
Qed.

Lemma searchAllStations_starts_witness :
  let s := run_ops [OpStart; OpRadioEvent (RADIO_EVENT_CONFIG 1 true);
                    OpSetFrequency 90000000] fallback in
  m_searchRange (exec (searchAllStations SearchGetStationId) s) = 20500 /\
  m_lastFrequency (exec (searchAllStations SearchGetStationId) s) = 2500.
Proof.
  cbv zeta.
  pose proof (searchAllStations_starts
                (run_ops [OpStart; OpRadioEvent (RADIO_EVENT_CONFIG 1 true);
                          OpSetFrequency 90000000] fallback)
                SearchGetStationId eq_refl) as H.
  cbv zeta in H. destruct H as (_ & _ & _ & _ & H5 & H6 & _).
  split; [exact H5 | exact H6].
Defined.

(** X11.  [searchAllStations] on a tuner that is not enabled still sets
    [m_searching] and the sweep flags, but calls no HAL function and does
    not arm the timer; [cancelSearch] and the watchdog then leave the state
    as it is. *)
Theorem searchAllStations_without_tuner (s : State) (searchMode : SearchMode)
    (Hdis : eval tunerEnabled s = false) :
  let s' := exec (searchAllStations searchMode) s in
  m_searching s' = true /\ m_searchAll s' = true /\
  hal_calls s' = hal_calls s /\ m_seekTimer s' = m_seekTimer s /\
  eval tunerEnabled s' = false /\
  exec cancelSearch s' = s' /\
  exec handleSeekTimeout s' = s'.
Proof.
  cbv zeta.
  pose proof (searchAllStations_fields s searchMode) as H. cbv zeta in H.
  destruct H as (H1 & H2 & H3 & H4 & H5 & H6 & H7 & H8 & _ & H10 & H11).
  rewrite Hdis in H10, H11. cbn [orb] in H10.
  rewrite app_nil_r in H11.
  assert (Hd : eval tunerEnabled (exec (searchAllStations searchMode) s) = false).
  { assert (Hp : preserves (fun s => (hal_tuner s, m_tunerReady s))
                   (searchAllStations searchMode)) by frame.
    specialize (Hp s). injection Hp as Ht Hr.
    unfold eval, tunerEnabled, gets in *. cbn [fst] in *.
    now rewrite Ht, Hr. }
  assert (Hc : exec cancelSearch (exec (searchAllStations searchMode) s) =
               exec (searchAllStations searchMode) s).
  { unfold exec at 1. now rewrite cancelSearch_disabled. }
  repeat split; try assumption.
  unfold handleSeekTimeout.
  rewrite exec_bind, eval_gets, exec_gets, H2. cbv beta iota.
  rewrite exec_bind, eval_gets, exec_gets. cbv beta.
  destruct (SearchMode_eqb _ _); [exact Hc |].
  rewrite exec_bind, eval_gets, exec_gets, H4. cbv beta.
  rewrite Z.eqb_refl. exact Hc.
Qed.

Lemma searchAllStations_without_tuner_witness :
  m_searching (exec (searchAllStations SearchFast) fallback) = true /\
  exec cancelSearch (exec (searchAllStations SearchFast) fallback) =
    exec (searchAllStations SearchFast) fallback.
Proof.
  pose proof (searchAllStations_without_tuner fallback SearchFast eq_refl) as H.
  cbv zeta in H. destruct H as (H1 & _ & _ & _ & _ & H5 & _).
  split; [exact H1 | exact H5].
Defined.

(** ** Tuned events *)

(** X12.  A tuned event outside a sweep ends the search: the channel
    becomes the current frequency and is announced with
    [frequencyChanged], [m_searching] is cleared (with
    [searchingChanged false] when it was set), the timer is stopped and
    the stereo flag is taken from the event; no HAL function is called. *)
Theorem tuned_ends_seek (s : State) (channel : Z) (stereo : bool)
    (Hall : m_searchAll s = false) (Hlast : m_searchAllLast s = false) :
  let s' := exec (handleTuned channel stereo) s in
  m_currentFreq s' = channel /\
  frequency s' = FREQ_HAL_TO_QT channel /\
  m_searching s' = false /\ m_seekTimer s' = false /\
  m_stereoEnabled s' = stereo /\
  hal_calls s' = hal_calls s /\
  emitted s' =
    emitted s ++ [frequencyChanged (FREQ_HAL_TO_QT channel)] ++
    (if m_searching s then [searchingChanged false] else []) ++
    (if Bool.eqb stereo (m_stereoEnabled s) then []
     else [stereoStatusChanged stereo]).
Proof.
  cbv zeta. unfold frequency.
  unfold handleTuned, handleTuned_done, setSearching, setStereoEnabled.
  exec_all using (rewrite ?Hall, ?Hlast); exec_done.
Qed.

Lemma tuned_ends_seek_witness :
  let s := run_ops [OpStart; OpRadioEvent (RADIO_EVENT_CONFIG 1 true);
                    OpSearchForward] fallback in
  m_searching s = true /\
  m_searching (exec (handleTuned 101300 false) s) = false /\
  frequency (exec (handleTuned 101300 false) s) = 101300000.
Proof.
  cbv zeta.
  pose proof (tuned_ends_seek
                (run_ops [OpStart; OpRadioEvent (RADIO_EVENT_CONFIG 1 true);
                          OpSearchForward] fallback)
                101300 false eq_refl eq_refl) as H.
  cbv zeta in H. destruct H as (_ & H2 & H3 & _).
  split; [reflexivity | split; [exact H3 | exact H2]].
Defined.

(** X13.  A step of a fast sweep that leaves some range, on an enabled
    tuner: the channel is recorded as first-found when none was, else
    reported with [stationFound]; one forward [scan] is called and the
    timer armed; the search goes on ([m_searching] and the sweep flags stay,
    no [frequencyChanged] is emitted). *)
Theorem fast_step_continues (s : State) (channel : Z) (stereo : bool)
    (Hall : m_searchAll s = true) (Hlast : m_searchAllLast s = false)
    (Hfast : m_searchMode s = SearchFast)
    (Hen : eval tunerEnabled s = true)
    (Hleft :
       0 < isub (m_searchRange s)
                (reduce_distance (config_lower_limit s) (config_upper_limit s)
                                 (m_lastFrequency s) channel)) :
  let s' := exec (handleTuned channel stereo) s in
  hal_calls s' = hal_calls s ++ [scan RADIO_DIRECTION_UP] /\
  m_seekTimer s' = true /\
  m_searching s' = m_searching s /\
  m_searchAll s' = true /\ m_searchAllLast s' = false /\
  m_currentFreq s' = channel /\
  m_firstFoundFrequency s' =
    (if 0 <? m_firstFoundFrequency s then m_firstFoundFrequency s
     else channel) /\
  emitted s' =
    emitted s ++
    (if 0 <? m_firstFoundFrequency s
     then [stationFound (FREQ_HAL_TO_QT channel) (m_stationId s)] else []).
Proof.
  cbv zeta. apply Z.ltb_lt in Hleft. rewrite eval_tunerEnabled in Hen.
  unfold handleTuned, tunedSearchAll, searchForward, seek.
  exec_all using (rewrite ?Hall, ?Hlast, ?Hfast, ?Hen, ?Hleft); exec_done.
Qed.

Lemma fast_step_continues_witness :
  let s := run_ops [OpStart; OpRadioEvent (RADIO_EVENT_CONFIG 1 true);
                    OpSetFrequency 90000000;
                    OpSearchAllStations SearchFast;
                    OpRadioEvent (RADIO_EVENT_TUNED 95000 true)] fallback in
  emitted (exec (handleTuned 99000 true) s) =
    emitted s ++ [stationFound 99000000 []].
Proof.
  cbv zeta.
  pose proof (fast_step_continues
                (run_ops [OpStart; OpRadioEvent (RADIO_EVENT_CONFIG 1 true);
                          OpSetFrequency 90000000;
                          OpSearchAllStations SearchFast;
                          OpRadioEvent (RADIO_EVENT_TUNED 95000 true)] fallback)
                99000 true eq_refl eq_refl eq_refl eq_refl
                ltac:(vm_compute; reflexivity)) as H.
  cbv zeta in H. destruct H as (_ & _ & _ & _ & _ & _ & _ & H8).
  exact H8.
Defined.

(** X14.  A step of a station-id sweep that does not end the sweep (some
    range is left, or the channel differs from a recorded first-found
    frequency) is silent: no signal is emitted, no HAL function called and
    the timer is left as it runs; the channel is stored and recorded as
    first-found when none was; and the step is marked as the last one
    exactly when the range is used up. *)
Theorem stationid_step_waits (s : State) (channel : Z) (stereo : bool)
    (Hall : m_searchAll s = true) (Hlast : m_searchAllLast s = false)
    (Hmode : m_searchMode s = SearchGetStationId)
    (Hgo :
       0 < isub (m_searchRange s)
                (reduce_distance (config_lower_limit s) (config_upper_limit s)
                                 (m_lastFrequency s) channel) \/
       (0 < m_firstFoundFrequency s /\ m_firstFoundFrequency s <> channel)) :
  let s' := exec (handleTuned channel stereo) s in
  emitted s' = emitted s /\ hal_calls s' = hal_calls s /\
  m_seekTimer s' = m_seekTimer s /\ m_searching s' = m_searching s /\
  m_searchAll s' = true /\ m_currentFreq s' = channel /\
  m_firstFoundFrequency s' =
    (if 0 <? m_firstFoundFrequency s then m_firstFoundFrequency s
     else channel) /\
  m_searchAllLast s' =
    negb (0 <? isub (m_searchRange s)
                    (reduce_distance (config_lower_limit s)
                                     (config_upper_limit s)
                                     (m_lastFrequency s) channel)).
Proof.
  cbv zeta.
  unfold handleTuned, tunedSearchAll.
  destruct Hgo as [Hleft | [Hrec Hdiff]].
  - apply Z.ltb_lt in Hleft.
    exec_all using (rewrite ?Hall, ?Hlast, ?Hmode, ?Hleft); exec_done.
  - apply Z.ltb_lt in Hrec. apply Z.eqb_neq in Hdiff.
    exec_all using (rewrite ?Hall, ?Hlast, ?Hmode, ?Hrec, ?Hdiff); exec_done.
Qed.

Lemma stationid_step_waits_witness :
  let s := run_ops [OpStart; OpRadioEvent (RADIO_EVENT_CONFIG 1 true);
                    OpSetFrequency 90000000;
                    OpSearchAllStations SearchGetStationId] fallback in
  emitted (exec (handleTuned 95000 true) s) = emitted s /\
  hal_calls (exec (handleTuned 95000 true) s) = hal_calls s.
Proof.
  cbv zeta.
  pose proof (stationid_step_waits
                (run_ops [OpStart; OpRadioEvent (RADIO_EVENT_CONFIG 1 true);
                          OpSetFrequency 90000000;
                          OpSearchAllStations SearchGetStationId] fallback)
                95000 true eq_refl eq_refl eq_refl
                ltac:(left; vm_compute; reflexivity)) as H.
  cbv zeta in H. destruct H as (H1 & H2 & _).
  split; [exact H1 | exact H2].
Defined.

(** X15.  A tuned event that arrives when the last step of a sweep is
    marked ends the sweep whatever the channel: the sweep flags and
    [m_searchWaitForRDS] are cleared, [m_searching] is cleared (with
    [searchingChanged false] first when it was set), the timer is stopped
    and [frequencyChanged] is emitted for the channel. *)
Theorem tuned_after_last_step (s : State) (channel : Z) (stereo : bool)
    (Hlast : m_searchAllLast s = true) :
  let s' := exec (handleTuned channel stereo) s in
  m_searching s' = false /\ m_searchAll s' = false /\
  m_searchAllLast s' = false /\ m_searchWaitForRDS s' = false /\
  m_seekTimer s' = false /\ m_currentFreq s' = channel /\
  hal_calls s' = hal_calls s /\
  emitted s' =
    emitted s ++
    (if m_searching s then [searchingChanged false] else []) ++
    [frequencyChanged (FREQ_HAL_TO_QT channel)] ++
    (if Bool.eqb stereo (m_stereoEnabled s) then []
     else [stereoStatusChanged stereo]).
Proof.
  cbv zeta.
  unfold handleTuned, handleTuned_done, setSearching, setStereoEnabled.
  exec_all using (rewrite ?Hlast); exec_done.
Qed.

Lemma tuned_after_last_step_witness :
  let s := run_ops [OpStart; OpRadioEvent (RADIO_EVENT_CONFIG 1 true);
                    OpSetFrequency 107900000;
                    OpSearchAllStations SearchGetStationId;
                    OpRadioEvent (RADIO_EVENT_TUNED 90000 true);
                    OpSeekTimeout;
                    OpRadioEvent (RADIO_EVENT_TUNED 107900 true)] fallback in
  m_searchAllLast s = true /\ m_searching s = true /\
  m_searching (exec (handleTuned 90000 true) s) = false.
Proof.
  cbv zeta.
  pose proof (tuned_after_last_step
                (run_ops [OpStart; OpRadioEvent (RADIO_EVENT_CONFIG 1 true);
                          OpSetFrequency 107900000;
                          OpSearchAllStations SearchGetStationId;
                          OpRadioEvent (RADIO_EVENT_TUNED 90000 true);
                          OpSeekTimeout;
                          OpRadioEvent (RADIO_EVENT_TUNED 107900 true)]
                         fallback)
                90000 true eq_refl) as H.
  cbv zeta in H. destruct H as (H1 & _).
  split; [reflexivity | split; [reflexivity | exact H1]].
Defined.

(** ** Metadata *)


Lemma handleMetadataItems_failure (good rest : list metadata_item)
    (bad : metadata_item) (s : State) :
  item_ret bad <> 0 ->
  handleMetadataItems (good ++ bad :: rest) s = handleMetadataItems good s.
Proof.
  intros Hbad. apply Z.eqb_neq in Hbad. revert s.
  induction good as [| it good IH]; intros s; cbn [app handleMetadataItems].
  - now rewrite Hbad.
  - destruct (item_ret it =? 0); [| reflexivity].
    unfold bind. destruct (handleMetadataItem _ _ s) as [a s1]. apply IH.
Qed.

(** X17.  A metadata event is dropped as a whole, the object left as it
    is, when it carries no metadata, when an RDS error is set, when the
    consistency check of the block fails, or when the block is empty or
    its first record cannot be read. *)
Theorem metadata_discarded (s : State) (metadata : option radio_metadata_t)
    (H : metadata = None \/ m_rdsError s <> RdsNoError \/
         exists md, metadata = Some md /\
                    (check_ret md <> 0 \/ items md = [] \/
                     exists bad rest, items md = bad :: rest /\
                                      item_ret bad <> 0)) :
  exec (handleMetadata metadata) s = s.
Proof.
  unfold handleMetadata. rewrite exec_bind, eval_gets, exec_gets.
  destruct H as [-> | [H | (md & -> & H)]]; [reflexivity | |].
  - destruct metadata; [| reflexivity].
    destruct (m_rdsError s); try reflexivity. congruence.
  - destruct (negb (RdsError_eqb (m_rdsError s) RdsNoError)); [reflexivity |].
    destruct H as [H | [H | (bad & rest & H & Hbad)]].
    + apply Z.eqb_neq in H. now rewrite H.
    + rewrite H. now destruct (negb (check_ret md =? 0)).
    + rewrite H. apply Z.eqb_neq in Hbad.
      destruct (negb (check_ret md =? 0)); [reflexivity |].
      cbn [handleMetadataItems]. now rewrite Hbad.
Qed.

Lemma metadata_discarded_witness :
  exec (handleMetadata
          (Some (mkMetadata 0 [mkItem 1 RADIO_METADATA_KEY_RDS_PS
                                 (TYPE_TEXT [82; 49])])))
       fallback = fallback.
Proof.
  apply (metadata_discarded fallback). right. right.
  eexists. split; [reflexivity |]. right. right.
  eexists. eexists. split; [reflexivity |]. cbn. discriminate.
Defined.

(** X18.  The records of a block are handled in order up to the first
    one that cannot be read: that record and all that follow it are
    ignored, the ones before it have taken effect. *)
Theorem metadata_stops_at_failure (s : State) (md : radio_metadata_t)
    (good rest : list metadata_item) (bad : metadata_item)
    (Hitems : items md = good ++ bad :: rest) (Hbad : item_ret bad <> 0) :
  exec (handleMetadata (Some md)) s =
  exec (handleMetadata (Some (mkMetadata (check_ret md) good))) s.
Proof.
  unfold handleMetadata. rewrite !exec_bind, !eval_gets, !exec_gets.
  cbn [check_ret items]. rewrite Hitems.
  destruct (negb (RdsError_eqb (m_rdsError s) RdsNoError)); [reflexivity |].
  destruct (negb (check_ret md =? 0)); [reflexivity |].
  unfold exec. now rewrite handleMetadataItems_failure.
Qed.

Lemma metadata_stops_at_failure_witness :
  m_stationName
    (exec (handleMetadata
             (Some (mkMetadata 0
                      [mkItem 0 RADIO_METADATA_KEY_RDS_PS (TYPE_TEXT [82; 49]);
                       mkItem 1 RADIO_METADATA_KEY_TITLE (TYPE_TEXT [72; 105]);
                       mkItem 0 RADIO_METADATA_KEY_RDS_PS (TYPE_TEXT [82; 50])])))
          fallback) = [82; 49].
Proof.
  rewrite (metadata_stops_at_failure fallback
             (mkMetadata 0
                [mkItem 0 RADIO_METADATA_KEY_RDS_PS (TYPE_TEXT [82; 49]);
                 mkItem 1 RADIO_METADATA_KEY_TITLE (TYPE_TEXT [72; 105]);
                 mkItem 0 RADIO_METADATA_KEY_RDS_PS (TYPE_TEXT [82; 50])])
             [mkItem 0 RADIO_METADATA_KEY_RDS_PS (TYPE_TEXT [82; 49])]
             [mkItem 0 RADIO_METADATA_KEY_RDS_PS (TYPE_TEXT [82; 50])]
             (mkItem 1 RADIO_METADATA_KEY_TITLE (TYPE_TEXT [72; 105]))
             eq_refl ltac:(cbn; discriminate)).
  reflexivity.
Defined.

Lemma tuner_view_handleMetadata metadata :
  preserves tuner_view (handleMetadata metadata).
Proof.
  unfold handleMetadata. frame.
  all: apply preserves_handleMetadataItems; intros; frame.
Qed.

Lemma emits_only_handleMetadata metadata :
  emits_only is_rds_signal (handleMetadata metadata).
Proof. unfold handleMetadata. emits. Qed.

(** X19.  A metadata event touches the RDS side only: whatever the
    block holds, no HAL function is called, the tuner, band, frequency,
    error and search state stay as they are, and every signal emitted
    is one of the RDS signals. *)
Theorem metadata_rds_only (s : State) (metadata : option radio_metadata_t) :
  let s' := exec (handleMetadata metadata) s in
  tuner_view s' = tuner_view s /\
  exists new, emitted s' = emitted s ++ new /\
              forallb is_rds_signal new = true.
Proof.
  cbv zeta. split.
  - apply tuner_view_handleMetadata.
  - apply emits_only_handleMetadata.
Qed.

Lemma item_current_noop key value (s : State) :
  item_current key value s = true ->
  exec (handleMetadataItem key value) s = s.
Proof.
  unfold item_current, handleMetadataItem. cbv zeta.
  destruct value, key; intros E; try reflexivity;
    rewrite exec_bind, eval_gets, exec_gets, E; reflexivity.
Qed.

Lemma item_current_after key value (s : State) :
  item_current key value (exec (handleMetadataItem key value) s) = true.
Proof.
  unfold item_current, handleMetadataItem. cbv zeta.
  destruct value, key; try reflexivity.
  all: exec_all; rewrite ?QString_eqb_refl, ?Z.eqb_refl; try reflexivity.
  all: now apply negb_false_iff.
Qed.

(** X20.  RDS data repeats: a record that carries the value already
    held changes nothing and emits nothing, and after a record was
    handled its value is the one held, so the same record delivered
    again is ignored. *)
Theorem metadata_item_repeated (s : State) (key : radio_metadata_key_t)
    (value : metadata_value) :
  let s' := exec (handleMetadataItem key value) s in
  (item_current key value s = true -> s' = s) /\
  item_current key value s' = true /\
  exec (handleMetadataItem key value) s' = s'.
Proof.
  cbv zeta. split; [apply item_current_noop |].
  split; [apply item_current_after |].
  apply item_current_noop, item_current_after.
Qed.

(** ** Invariants of runs *)

Lemma maintains_modify (I : State -> Prop) (g : State -> State) :
  (forall s, I s -> I (g s)) -> maintains I (modify g).
Proof. intros Hg s H. apply Hg, H. Qed.

Lemma maintains_preserved {A X} (view : State -> X) (I : State -> Prop)
    (m : M A) :
  (forall s s', view s' = view s -> I s -> I s') ->
  preserves view m -> maintains I m.
Proof. intros Hv Hm s H. exact (Hv s _ (Hm s) H). Qed.

Lemma maintains_run_ops (I : State -> Prop) :
  (forall op, maintains I (run_op op)) ->
  forall ops s, I s -> I (run_ops ops s).
Proof.
  intros Hop ops. induction ops as [| op ops IH]; intros s H; [exact H |].
  cbn [run_ops]. apply IH, Hop, H.
Qed.

Lemma flags_consistent_view (s s' : State) :
  search_flags s' = search_flags s -> flags_consistent s ->
  flags_consistent s'.
Proof.
  unfold search_flags, flags_consistent. intros [= -> -> ->]. auto.
Qed.

(** The computation is run from each of the four consistent settings
    of the flags. *)
Ltac flags_run :=
  let s := fresh "s" in
  let Hlast := fresh "Hlast" in
  let Hall := fresh "Hall" in
  intros s [Hlast Hall];
  destruct (m_searching s) eqn:Hsg, (m_searchAll s) eqn:Hsa,
    (m_searchAllLast s) eqn:Hsl;
  try discriminate (Hlast eq_refl); try discriminate (Hall eq_refl);
  clear Hlast Hall;
  exec_all using (rewrite ?Hsg, ?Hsa, ?Hsl);
  unfold flags_consistent; fields; use_tests; split; intros; congruence.

Lemma flags_seek direction : maintains flags_consistent (seek direction).
Proof. unfold maintains, seek, setSearching. flags_run. Qed.

Lemma flags_cancelSearch : maintains flags_consistent cancelSearch.
Proof. unfold maintains, cancelSearch, setSearching. flags_run. Qed.

Lemma flags_start : maintains flags_consistent start.
Proof. unfold maintains, start. flags_run. Qed.

Lemma flags_stop : maintains flags_consistent stop.
Proof. unfold maintains, stop, cancelSearch, setSearching. flags_run. Qed.

Lemma flags_searchAllStations searchMode :
  maintains flags_consistent (searchAllStations searchMode).
Proof.
  unfold maintains, searchAllStations, searchForward, seek, setSearching.
  flags_run.
Qed.

Lemma flags_handleSeekTimeout : maintains flags_consistent handleSeekTimeout.
Proof.
  unfold maintains, handleSeekTimeout, cancelSearch, searchForward, seek,
    setSearching.
  flags_run.
Qed.

Lemma flags_handleTuned channel stereo :
  maintains flags_consistent (handleTuned channel stereo).
Proof.
  unfold maintains, handleTuned, tunedSearchAll, handleTuned_done,
    searchForward, seek, setSearching, setStereoEnabled.
  flags_run.
Qed.

Lemma flags_run_op (op : Operation) : maintains flags_consistent (run_op op).
Proof.
  destruct op as [| | f | | | mode | | | event]; cbn [run_op].
  - apply flags_start.
  - apply flags_stop.
  - apply (maintains_preserved search_flags); [apply flags_consistent_view |].
    unfold setFrequency. frame.
  - apply flags_seek.
  - apply flags_seek.
  - apply flags_searchAllStations.
  - apply flags_cancelSearch.
  - apply flags_handleSeekTimeout.
  - destruct event; cbn [radioEvent].
    + unfold handleHwFailure. apply maintains_bind; [| intros _; apply flags_stop].
      apply (maintains_preserved search_flags); [apply flags_consistent_view |].
      frame.
    + apply (maintains_preserved search_flags); [apply flags_consistent_view |].
      unfold handleConfig. frame.
    + apply (maintains_preserved search_flags); [apply flags_consistent_view |].
      unfold handleAntenna. frame.
    + apply flags_handleTuned.
    + apply (maintains_preserved search_flags); [apply flags_consistent_view |].
      unfold handleMetadata. frame.
      all: apply preserves_handleMetadataItems; intros; frame.
    + apply maintains_ret.
    + apply maintains_ret.
    + apply maintains_ret.
    + apply maintains_ret.
Qed.

(** X21.  The three flags of a search stay nested through every run of
    operations, timer expiries and HAL events, whatever the HAL returns:
    the last step of a sweep is only marked during a sweep, and a sweep
    only runs while [m_searching] is set.  The constructor establishes
    this, so it holds in every state the object reaches. *)
Theorem search_flags_nested (ops : list Operation) :
  (forall lower upper rds returns,
      flags_consistent
        (run_ops ops (set_hal_returns returns (constructed lower upper rds)))) /\
  (forall s, flags_consistent s -> flags_consistent (run_ops ops s)).
Proof.
  assert (H : forall s, flags_consistent s -> flags_consistent (run_ops ops s))
    by (apply maintains_run_ops, flags_run_op).
  split; [| exact H].
  intros. apply H. split; discriminate.
Qed.

(** ** Clean texts *)

Lemma sanitize_accepted (text : QString) :
  forallb accepted (sanitize text) = true.
Proof.
  apply forallb_forall. intros c Hc. unfold sanitize in Hc.
  apply In_trimmed in Hc. rewrite QString_remove_accepted in Hc.
  apply filter_In in Hc. tauto.
Qed.

Lemma resetRDS_signals_clean (s : State) :
  forallb clean_signal (resetRDS_signals s) = true.
Proof.
  unfold resetRDS_signals.
  destruct (QString_isEmpty (m_radioText s)),
    (QString_isEmpty (m_stationName s)), (m_programType s =? 0),
    (QString_isEmpty (m_stationId s)); reflexivity.
Qed.

(** The computation is run and each state it can end in is checked. *)
Ltac clean_run :=
  let s := fresh "s" in
  let H1 := fresh "Hid" in
  let H2 := fresh "Hname" in
  let H3 := fresh "Htext" in
  let H4 := fresh "Hlog" in
  intros s [(H1 & H2 & H3) H4];
  exec_all;
  unfold all_clean, rds_clean; fields;
  rewrite ?forallb_app, ?H4, ?resetRDS_signals_clean;
  cbn [forallb clean_signal andb];
  rewrite ?H1, ?H2, ?H3, ?sanitize_accepted;
  repeat split; reflexivity.

Lemma clean_seek direction : maintains all_clean (seek direction).
Proof. unfold maintains, seek, setSearching. clean_run. Qed.

Lemma clean_cancelSearch : maintains all_clean cancelSearch.
Proof. unfold maintains, cancelSearch, setSearching. clean_run. Qed.

Lemma clean_start : maintains all_clean start.
Proof. unfold maintains, start. clean_run. Qed.

Lemma clean_stop : maintains all_clean stop.
Proof. unfold maintains, stop, cancelSearch, setSearching. clean_run. Qed.

Lemma clean_setFrequency newFrequency :
  maintains all_clean (setFrequency newFrequency).
Proof. unfold maintains, setFrequency, setTuning. cbv zeta. clean_run. Qed.

Lemma clean_searchAllStations searchMode :
  maintains all_clean (searchAllStations searchMode).
Proof.
  unfold maintains, searchAllStations, searchForward, seek, setSearching.
  clean_run.
Qed.

Lemma clean_handleSeekTimeout : maintains all_clean handleSeekTimeout.
Proof.
  unfold maintains, handleSeekTimeout, cancelSearch, searchForward, seek,
    setSearching.
  clean_run.
Qed.

Lemma clean_handleTuned channel stereo :
  maintains all_clean (handleTuned channel stereo).
Proof.
  unfold maintains, handleTuned, tunedSearchAll, handleTuned_done,
    searchForward, seek, setSearching, setStereoEnabled.
  clean_run.
Qed.

Lemma clean_handleConfig band stereo :
  maintains all_clean (handleConfig band stereo).
Proof.
  unfold maintains, handleConfig, setError, setTuning, setStereoEnabled.
  clean_run.
Qed.

Lemma clean_handleAntenna connected :
  maintains all_clean (handleAntenna connected).
Proof. unfold maintains, handleAntenna. clean_run. Qed.

Lemma clean_setError newError : maintains all_clean (setError newError).
Proof. unfold maintains, setError. clean_run. Qed.

Lemma clean_handleMetadataItem key value :
  maintains all_clean (handleMetadataItem key value).
Proof.
  unfold maintains, handleMetadataItem. cbv zeta.
  destruct value, key; try (intros s H; exact H); clean_run.
Qed.

Lemma clean_handleMetadata metadata :
  maintains all_clean (handleMetadata metadata).
Proof.
  unfold handleMetadata.
  apply maintains_bind; [apply maintains_gets | intros rdsError].
  destruct metadata as [md |]; [| apply maintains_ret].
  destruct (negb _); [apply maintains_ret |].
  destruct (negb _); [apply maintains_ret |].
  apply (handleMetadataItems_closed (maintains all_clean)).
  - apply maintains_ret.
  - intros. now apply maintains_bind.
  - apply clean_handleMetadataItem.
Qed.

Lemma clean_run_op (op : Operation) : maintains all_clean (run_op op).
Proof.
  destruct op as [| | f | | | mode | | | event]; cbn [run_op].
  - apply clean_start.
  - apply clean_stop.
  - apply clean_setFrequency.
  - apply clean_seek.
  - apply clean_seek.
  - apply clean_searchAllStations.
  - apply clean_cancelSearch.
  - apply clean_handleSeekTimeout.
  - destruct event; cbn [radioEvent]; try apply maintains_ret.
    + unfold handleHwFailure.
      apply maintains_bind; [apply clean_setError | intros _; apply clean_stop].
    + apply clean_handleConfig.
    + apply clean_handleAntenna.
    + apply clean_handleTuned.
    + apply clean_handleMetadata.
Qed.

(** X22.  Whatever text the HAL delivers, the station identifier, the
    station name and the radio text the object holds, and every text it
    passes on in a signal ([stationIdChanged], [stationNameChanged],
    [radioTextChanged], [stationFound]), consist only of characters the
    pattern of line 685 accepts (U+0020 to U+005F, a small letter or the
    pound sign), in every state a run of operations, timer expiries and
    events reaches from the constructed object. *)
Theorem texts_stay_clean (ops : list Operation) :
  (forall lower upper rds returns,
      all_clean
        (run_ops ops (set_hal_returns returns (constructed lower upper rds)))) /\
  (forall s, all_clean s -> all_clean (run_ops ops s)).
Proof.
  assert (H : forall s, all_clean s -> all_clean (run_ops ops s))
    by (apply maintains_run_ops, clean_run_op).
  split; [| exact H].
  intros. apply H. repeat split.
Qed.

(** ** The closed tuner *)

Lemma silent_preserved {A} (m : M A) :
  preserves (fun s => (hal_tuner s, hal_calls s)) m -> silent_when_closed m.
Proof.
  intros Hm s H. specialize (Hm s). cbv beta in Hm.
  injection Hm as H1 H2. rewrite H1, H2. auto.
Qed.

(** The computation is run on a state whose tuner handle is null. *)
Ltac silent_run :=
  let s := fresh "s" in
  let H := fresh "Hclosed" in
  intros s H;
  exec_all using (rewrite ?H, ?orb_true_r);
  use_tests; split; reflexivity.

Lemma silent_seek direction : silent_when_closed (seek direction).
Proof. unfold silent_when_closed, seek, setSearching. silent_run. Qed.

Lemma silent_cancelSearch : silent_when_closed cancelSearch.
Proof. unfold silent_when_closed, cancelSearch, setSearching. silent_run. Qed.

Lemma silent_stop : silent_when_closed stop.
Proof. unfold silent_when_closed, stop, cancelSearch, setSearching. silent_run. Qed.

Lemma silent_setFrequency newFrequency :
  silent_when_closed (setFrequency newFrequency).
Proof.
  unfold silent_when_closed, setFrequency, setTuning. cbv zeta. silent_run.
Qed.

Lemma silent_searchAllStations searchMode :
  silent_when_closed (searchAllStations searchMode).
Proof.
  unfold silent_when_closed, searchAllStations, searchForward, seek,
    setSearching.
  silent_run.
Qed.

Lemma silent_handleSeekTimeout : silent_when_closed handleSeekTimeout.
Proof.
  unfold silent_when_closed, handleSeekTimeout, cancelSearch, searchForward,
    seek, setSearching.
  silent_run.
Qed.

Lemma silent_handleTuned channel stereo :
  silent_when_closed (handleTuned channel stereo).
Proof.
  unfold silent_when_closed, handleTuned, tunedSearchAll, handleTuned_done,
    searchForward, seek, setSearching, setStereoEnabled.
  silent_run.
Qed.

Lemma silent_handleConfig band stereo :
  silent_when_closed (handleConfig band stereo).
Proof.
  unfold silent_when_closed, handleConfig, setError, setTuning,
    setStereoEnabled.
  silent_run.
Qed.

Lemma silent_run_op (op : Operation) :
  op <> OpStart -> silent_when_closed (run_op op).
Proof.
  intros Hop.
  destruct op as [| | f | | | mode | | | event]; cbn [run_op].
  - congruence.
  - apply silent_stop.
  - apply silent_setFrequency.
  - apply silent_seek.
  - apply silent_seek.
  - apply silent_searchAllStations.
  - apply silent_cancelSearch.
  - apply silent_handleSeekTimeout.
  - destruct event; cbn [radioEvent]; try apply silent_ret.
    + unfold handleHwFailure.
      apply silent_bind; [| intros _; apply silent_stop].
      apply silent_preserved. frame.
    + apply silent_handleConfig.
    + apply silent_preserved. unfold handleAntenna. frame.
    + apply silent_handleTuned.
    + apply silent_preserved. unfold handleMetadata. frame.
      all: apply preserves_handleMetadataItems; intros; frame.
Qed.

(** X23.  While the tuner is closed only [start] reaches the HAL: any
    run of other operations, timer expiries and events, in any state
    with a null tuner handle, calls no HAL function and leaves the
    handle null.  (Signals may still be emitted, and a frequency or a
    search request is still stored.) *)
Theorem closed_tuner_silent (ops : list Operation) (s : State)
    (Hops : Forall (fun op => op <> OpStart) ops)
    (Hclosed : hal_tuner s = false) :
  hal_tuner (run_ops ops s) = false /\
  hal_calls (run_ops ops s) = hal_calls s.
Proof.
  revert s Hclosed.
  induction Hops as [| op ops Hop _ IH]; intros s Hclosed; [auto |].
  cbn [run_ops].
  destruct (silent_run_op op Hop s Hclosed) as [H1 H2].
  destruct (IH _ H1) as [H3 H4].
  split; [exact H3 | now rewrite H4].
Qed.

Lemma closed_tuner_silent_witness :
  hal_calls
    (run_ops [OpSetFrequency 90000000; OpSearchAllStations SearchFast;
              OpRadioEvent (RADIO_EVENT_TUNED 95000 true); OpSeekTimeout;
              OpStop]
             fallback) = [].
Proof.
  apply (closed_tuner_silent
           [OpSetFrequency 90000000; OpSearchAllStations SearchFast;
            OpRadioEvent (RADIO_EVENT_TUNED 95000 true); OpSeekTimeout;
            OpStop] fallback).
  - repeat constructor; discriminate.
  - reflexivity.
Defined.

(** ** Setting the frequency *)

(** X24.  A request for the frequency already held (in kHz) changes
    nothing, not even when that frequency lies outside the band.  Any
    other request on an enabled tuner stores the request moved into the
    band, clears the RDS values as [resetRDS] does and calls [tune] once
    with the stored frequency (no call when that is 0); it emits no
    [frequencyChanged] and leaves a running search as it is. *)
Theorem setFrequency_tunes (s : State) (newFrequency : Z) :
  let target := clamp_frequency (config_lower_limit s) (config_upper_limit s)
                                (FREQ_QT_TO_HAL newFrequency) in
  let s' := exec (setFrequency newFrequency) s in
  (FREQ_QT_TO_HAL newFrequency = m_currentFreq s -> s' = s) /\
  (FREQ_QT_TO_HAL newFrequency <> m_currentFreq s ->
   eval tunerEnabled s = true ->
   m_currentFreq s' = target /\ frequency s' = FREQ_HAL_TO_QT target /\
   hal_calls s' = hal_calls s ++ (if target =? 0 then [] else [tune target]) /\
   emitted s' = emitted s ++ resetRDS_signals s /\
   m_radioText s' = [] /\ m_stationName s' = [] /\ m_programType s' = 0 /\
   m_stationId s' = [] /\ search_flags s' = search_flags s /\
   m_seekTimer s' = m_seekTimer s).
Proof.
  cbv zeta. unfold frequency, search_flags, clamp_frequency.
  unfold setFrequency, setTuning. cbv zeta. split.
  - intros H. apply Z.eqb_eq in H. exec_all using (rewrite ?H). reflexivity.
  - intros H Hen. apply Z.eqb_neq in H. rewrite eval_tunerEnabled in Hen.
    apply andb_true_iff in Hen. destruct Hen as [Ht Hr].
    exec_all using (rewrite ?H, ?Ht, ?Hr); exec_done.
Qed.

(** X25.  A frequency requested while the tuner is open but not yet
    ready is only stored; the first configuration event then tunes to it:
    [tune] is called with the stored frequency, the tuner is enabled and
    [stateChanged ActiveState] emitted. *)
Theorem frequency_set_before_ready (s : State) (newFrequency band : Z)
    (stereo : bool)
    (Hopen : hal_tuner s = true) (Hready : m_tunerReady s = false)
    (Hne : FREQ_QT_TO_HAL newFrequency <> m_currentFreq s) :
  let target := clamp_frequency (config_lower_limit s) (config_upper_limit s)
                                (FREQ_QT_TO_HAL newFrequency) in
  let s1 := exec (setFrequency newFrequency) s in
  let s2 := exec (handleConfig band stereo) s1 in
  hal_calls s1 = hal_calls s /\ emitted s1 = emitted s /\
  m_currentFreq s1 = target /\
  hal_calls s2 = hal_calls s ++ (if target =? 0 then [] else [tune target]) /\
  m_currentFreq s2 = target /\ tunerState s2 = ActiveState /\
  In (stateChanged ActiveState) (emitted s2).
Proof.
  cbv zeta. unfold clamp_frequency, tunerState.
  apply Z.eqb_neq in Hne.
  assert (E : exec (setFrequency newFrequency) s =
              set_m_currentFreq
                (if config_upper_limit s <?
                    (if FREQ_QT_TO_HAL newFrequency <? config_lower_limit s
                     then config_lower_limit s
                     else FREQ_QT_TO_HAL newFrequency)
                 then config_upper_limit s
                 else if FREQ_QT_TO_HAL newFrequency <? config_lower_limit s
                      then config_lower_limit s
                      else FREQ_QT_TO_HAL newFrequency) s).
  { unfold setFrequency. cbv zeta.
    exec_all using (rewrite ?Hne, ?Hopen, ?Hready). reflexivity. }
  rewrite E. fields.
  split; [reflexivity |]. split; [reflexivity |]. split; [reflexivity |].
  rewrite eval_tunerEnabled.
  unfold handleConfig, setError, setTuning, setStereoEnabled.
  exec_all using (rewrite ?Hopen, ?Hready); exec_done;
    rewrite ?in_app_iff; cbn [In]; auto 10.
Qed.

Lemma frequency_set_before_ready_witness :
  hal_calls
    (exec (handleConfig 1 true)
       (exec (setFrequency 120000000) (exec start fallback))) =
  [open_tuner; tune 108000].
Proof.
  pose proof (frequency_set_before_ready (exec start fallback) 120000000 1
                true eq_refl eq_refl ltac:(vm_compute; discriminate)) as H.
  cbv zeta in H. destruct H as (_ & _ & _ & H & _). exact H.
Defined.

(** ** Signals and the values they announce *)

Lemma last_of_snoc {V} (sel : Signal -> option V) (log : list Signal)
    (sig : Signal) :
  last_of sel (log ++ [sig]) =
  match sel sig with Some v => Some v | None => last_of sel log end.
Proof. unfold last_of. now rewrite fold_left_app. Qed.

Section Notified.

Context {V : Type}.
Variable sel : Signal -> option V.
Variable field : State -> V.

Lemma notified_modify (g : State -> State) :
  (forall s, emitted (g s) = emitted s) ->
  (forall s, field (g s) = field s) ->
  maintains (notified sel field) (modify g).
Proof.
  intros He Hf s H. unfold notified, exec, modify in *. cbn [snd].
  now rewrite He, Hf.
Qed.

Lemma notified_emit_other (sig : Signal) :
  sel sig = None ->
  (forall log s, field (set_emitted log s) = field s) ->
  maintains (notified sel field) (emit sig).
Proof.
  intros Hs Hf s H. unfold notified in *.
  change (exec (emit sig) s) with (set_emitted (emitted s ++ [sig]) s).
  rewrite Hf. change (emitted (set_emitted ?l s)) with l.
  now rewrite last_of_snoc, Hs.
Qed.

(** A value is stored and announced at once. *)
Lemma notified_set_emit (g : State -> State) (sig : Signal) (v : V) :
  sel sig = Some v ->
  (forall log s, field (set_emitted log (g s)) = v) ->
  maintains (notified sel field) (bind (modify g) (fun _ => emit sig)).
Proof.
  intros Hs Hf s _. unfold notified.
  change (exec (bind (modify g) (fun _ => emit sig)) s)
    with (set_emitted (emitted (g s) ++ [sig]) (g s)).
  rewrite Hf. change (emitted (set_emitted ?l (g s))) with l.
  now rewrite last_of_snoc, Hs.
Qed.

Lemma notified_hal_call (cmd : HalCommand) :
  (forall calls returns s,
      field (set_hal_returns returns (set_hal_calls calls s)) = field s) ->
  maintains (notified sel field) (hal_call cmd).
Proof.
  intros Hf s H. unfold notified in *.
  change (exec (hal_call cmd) s)
    with (set_hal_returns (tl (hal_returns s))
            (set_hal_calls (hal_calls s ++ [cmd]) s)).
  rewrite Hf.
  change (emitted (set_hal_returns ?r (set_hal_calls ?c s)))
    with (emitted s).
  exact H.
Qed.

End Notified.

Ltac sync_step :=
  lazymatch goal with
  | |- maintains _ (bind (modify _) (fun _ => emit _)) =>
      first [ eapply notified_set_emit; [reflexivity | intros; reflexivity]
            | apply maintains_bind; [| intro] ]
  | |- maintains _ (bind _ _) => apply maintains_bind; [| intro]
  | |- maintains _ (ret _) => apply maintains_ret
  | |- maintains _ (gets _) => apply maintains_gets
  | |- maintains _ (when _ _) => apply maintains_when
  | |- maintains _ (modify _) =>
      apply notified_modify; intros; reflexivity
  | |- maintains _ (emit _) =>
      apply notified_emit_other; [reflexivity | intros; reflexivity]
  | |- maintains _ (hal_call _) =>
      apply notified_hal_call; intros; reflexivity
  | |- maintains _ (if ?b then _ else _) => destruct b
  | |- maintains _ (match ?x with _ => _ end) => destruct x
  | |- maintains _ (let _ := _ in _) => cbv zeta
  | |- maintains _ (handleMetadataItems _) =>
      apply (handleMetadataItems_closed (maintains _));
      [apply maintains_ret | intros; now apply maintains_bind | intros]
  | |- maintains _ _ =>
      progress (autounfold with radio; unfold setFrequency, handleTuned)
  end.

Ltac sync := cbn [run_op radioEvent]; repeat sync_step.

Lemma antenna_run_op (op : Operation) :
  maintains (notified sel_antenna m_antennaConnected) (run_op op).
Proof. destruct op as [| | | | | | | | []]; sync. Qed.

Lemma stereo_run_op (op : Operation) :
  maintains (notified sel_stereo m_stereoEnabled) (run_op op).
Proof. destruct op as [| | | | | | | | []]; sync. Qed.

Lemma error_run_op (op : Operation) :
  maintains (notified sel_error m_error) (run_op op).
Proof. destruct op as [| | | | | | | | []]; sync. Qed.

Lemma stationName_run_op (op : Operation) :
  maintains (notified sel_stationName m_stationName) (run_op op).
Proof. destruct op as [| | | | | | | | []]; sync. Qed.

Lemma radioText_run_op (op : Operation) :
  maintains (notified sel_radioText m_radioText) (run_op op).
Proof. destruct op as [| | | | | | | | []]; sync. Qed.

Lemma in_sync_run_op (op : Operation) : maintains in_sync (run_op op).
Proof.
  intros s (H1 & H2 & H3 & H4 & H5). repeat split.
  - now apply antenna_run_op.
  - now apply stereo_run_op.
  - now apply error_run_op.
  - now apply stationName_run_op.
  - now apply radioText_run_op.
Qed.

(** X26.  A listener is never left with a stale value: in every state
    a run of operations, timer expiries and events reaches from the
    constructed object, the last [antennaConnectedChanged],
    [stereoStatusChanged], tuner [error], [stationNameChanged] and
    [radioTextChanged] emitted so far, if any, carries the value the
    object holds. *)
Theorem signals_in_sync (ops : list Operation) :
  (forall lower upper rds returns,
      in_sync
        (run_ops ops (set_hal_returns returns (constructed lower upper rds)))) /\
  (forall s, in_sync s -> in_sync (run_ops ops s)).
Proof.
  assert (H : forall s, in_sync s -> in_sync (run_ops ops s))
    by (apply maintains_run_ops, in_sync_run_op).
  split; [| exact H].
  intros. apply H. repeat split.
Qed.
